(** * ark-chain-swaps: the two Boltz chain-swap clients

    A shallow embedding of [src/arkToBtc.ts] (ARK to BTC) and of its sibling
    script (BTC to ARK), and the properties of the swap session they
    implement.

    Both scripts are one async function [chainSwap]: it creates a swap with
    one HTTP POST, subscribes to the swap's updates on a WebSocket and then
    reacts to every inbound message in a [switch] on the status tag.  All
    cryptography, transaction handling and transport live in external
    packages (boltz-core, @scure/btc-signer, @noble, fetch, WebSocket).

    The embedding keeps that split.  A script is a program over a signature
    of external calls ([Ev]); what a call answers is not fixed, so that a
    statement about every execution holds whatever the service and the
    packages do.  What the scripts compute themselves (property reads on
    parsed JSON, hex coding, request bodies, the dispatch) is executable.

    Conventions:
    - [await fetch(..)] followed by [await response.json()] is one call,
      [Fetch]; it throws when either does;
    - [console.log] is left out;
    - the listeners are async functions; the embedding runs the listener
      of a message to its end before the next message is taken;
    - an exception that leaves a listener is caught nowhere in the scripts:
      the session stops there. *)

From Stdlib Require Import List String Ascii ZArith NArith Lia Bool.
From Stdlib.Strings Require Import Byte.
Import ListNotations.
Open Scope string_scope.
Open Scope list_scope.

Set Implicit Arguments.
Set Warnings "-register-all".

(** ** Outcomes of a computation that may throw *)

(** What a [throw] of the scripts or of a package they call can be. *)
Inductive exn : Type :=
| TypeError        (* property read on [undefined]/[null], non-string given to [hex.decode] *)
| SyntaxError      (* [JSON.parse] on text that is not JSON *)
| DecodeError      (* [hex.decode] on a string that is not hex *)
| LibError         (* thrown inside an external package *)
| NetError         (* rejected [fetch], or a body that is not JSON *)
| InsufficientAmount
| NotConverged.

Inductive result (A : Type) : Type :=
| Ok (a : A)
| Error (e : exn).
Arguments Ok {A} a.
Arguments Error {A} e.

Definition is_ok {A} (r : result A) : bool :=
  match r with Ok _ => true | Error _ => false end.

(** ** Bytes and the hex codec ([hex] of @scure/base) *)

Definition bytes := list byte.

(** The alphabet of the codec. *)
Definition hex_alphabet : list ascii :=
  list_ascii_of_string "0123456789abcdef".

Definition hex_digit (n : N) : ascii :=
  nth (N.to_nat n) hex_alphabet "f"%char.

(** [toLowerCase] on the letters that matter. *)
Definition lower (c : ascii) : ascii :=
  let n := N_of_ascii c in
  if ((65 <=? n) && (n <=? 90))%N then ascii_of_N (n + 32) else c.

Fixpoint position (c : ascii) (alphabet : list ascii) (i : N) : option N :=
  match alphabet with
  | [] => None
  | d :: rest => if Ascii.eqb c d then Some i else position c rest (N.succ i)
  end.

(** [hex.decode] lower-cases its input first, then looks every character
    up in the alphabet. *)
Definition nibble (c : ascii) : option N :=
  position (lower c) hex_alphabet 0.

Definition hex_of_byte (b : byte) : string :=
  let n := Byte.to_N b in
  String (hex_digit (n / 16)) (String (hex_digit (n mod 16)) EmptyString).

(** [hex.encode]: two lower-case digits per byte. *)
Fixpoint hex_encode (b : bytes) : string :=
  match b with
  | [] => EmptyString
  | x :: b' => (hex_of_byte x ++ hex_encode b')%string
  end.

Definition byte_of_nibbles (h l : N) : option byte := Byte.of_N (16 * h + l).

(** [hex.decode]: throws on an odd length and on a character that is not a
    hex digit; it has no notion of an expected length. *)
Fixpoint hex_decode (s : string) : result bytes :=
  match s with
  | EmptyString => Ok []
  | String _ EmptyString => Error DecodeError
  | String c1 (String c2 rest) =>
      match nibble c1, nibble c2 with
      | Some h, Some l =>
          match byte_of_nibbles h l, hex_decode rest with
          | Some x, Ok b => Ok (x :: b)
          | _, Error e => Error e
          | None, _ => Error DecodeError
          end
      | _, _ => Error DecodeError
      end
  end.

(** ** Values obtained from [JSON.parse]

    Objects are association lists in the order of the text, keys unique as
    [JSON.parse] leaves them.  Numbers are the integers the protocol carries
    (amounts in satoshi, indices); fractions are not represented.
    [JUndefined] is what reading an absent property gives. *)
Inductive json : Type :=
| JUndefined
| JNull
| JBool (b : bool)
| JNum (n : Z)
| JStr (s : string)
| JArr (l : list json)
| JObj (fields : list (string * json)).

Fixpoint assoc {V} (k : string) (l : list (string * V)) : option V :=
  match l with
  | [] => None
  | (k', v) :: l' => if String.eqb k k' then Some v else assoc k l'
  end.

(** [v.k]: throws a TypeError on [undefined] and [null]; none of the names
    the scripts read is a built-in property of a string, number, boolean or
    array, so those give [undefined]. *)
Definition get (v : json) (k : string) : result json :=
  match v with
  | JUndefined | JNull => Error TypeError
  | JObj fs => Ok (match assoc k fs with Some x => x | None => JUndefined end)
  | _ => Ok JUndefined
  end.

(** [v[0]] *)
Definition get0 (v : json) : result json :=
  match v with
  | JUndefined | JNull => Error TypeError
  | JArr l => Ok (match l with x :: _ => x | [] => JUndefined end)
  | JStr s => Ok (match s with String c _ => JStr (String c EmptyString) | EmptyString => JUndefined end)
  | JObj fs => Ok (match assoc "0" fs with Some x => x | None => JUndefined end)
  | _ => Ok JUndefined
  end.

(** [v === "s"] *)
Definition is_str (v : json) (s : string) : bool :=
  match v with JStr s' => String.eqb s' s | _ => false end.

(** [hex.decode(v)] on a value of unknown type: a TypeError unless [v] is a
    string. *)
Definition hex_decode_js (v : json) : result bytes :=
  match v with
  | JStr s => hex_decode s
  | _ => Error TypeError
  end.

(** The object literal [{k1: v1, ...}] as [JSON.stringify] sends it: a
    property whose value is [undefined] is left out. *)
Fixpoint obj_fields (l : list (string * json)) : list (string * json) :=
  match l with
  | [] => []
  | (k, JUndefined) :: l' => obj_fields l'
  | kv :: l' => kv :: obj_fields l'
  end.
Definition obj (l : list (string * json)) : json := JObj (obj_fields l).

(** An array element that is [undefined] is sent as [null]. *)
Definition arr_elem (v : json) : json :=
  match v with JUndefined => JNull | _ => v end.

(** ** HTTP requests

    The URL templates of the scripts, with the interpolated swap identifier
    kept as the value read from the creation response. *)
Inductive Method : Type := GET | POST.

Inductive Path : Type :=
| PSwapChain                 (* /v2/swap/chain *)
| PQuote (id : json)         (* /v2/swap/chain/${id}/quote *)
| PClaim (id : json)         (* /v2/swap/chain/${id}/claim *)
| PBroadcast.                (* /v2/chain/BTC/transaction *)

Record Request : Type := mkReq {
  method : Method;
  path : Path;
  body : option json
}.

(** What [detectSwap] returns when it finds the output: a plain object. *)
Record SwapOutput : Type := mkSwapOutput {
  script : bytes;
  amount : Z;
  vout : Z
}.

Inductive OutputType : Type := Bech32 | Compatibility | Legacy | Taproot.

Definition SigHash_DEFAULT : Z := 0.

(** ** The external packages

    Their objects are opaque to the scripts but for the properties read from
    them; [sha256] is a total function. *)
Class Library : Type := {
  Musig : Type;        (* the MuSig2 builder object, at any of its stages *)
  Tx : Type;           (* a @scure/btc-signer Transaction *)
  SwapTree : Type;     (* result of deserializeSwapTree *)
  Tree : Type;         (* its [tree] property *)
  sha256 : bytes -> bytes;
  tree : SwapTree -> Tree;
  aggPubkey : Musig -> bytes;
  internalKey : Musig -> bytes;
  publicNonce : Musig -> bytes;
  ourPartialSignature : Musig -> bytes;
  tx_id : Tx -> string;
  tx_hex : Tx -> string
}.

Section Scripts.

Context {L : Library}.

(** The object handed to [constructClaimTransaction] for the one input. *)
Record ClaimDetails : Type := mkClaimDetails {
  cd_preimage : bytes;
  cd_type : OutputType;
  cd_script : bytes;
  cd_amount : Z;
  cd_vout : Z;
  cd_privateKey : bytes;
  cd_transactionId : string;
  cd_swapTree : SwapTree;
  cd_internalKey : bytes;
  cd_cooperative : bool
}.

(** One call [constructClaimTransaction(utxos, OutScript.encode(
    Address(network).decode(destination)), fee)]. *)
Record ClaimCall : Type := mkClaimCall {
  utxos : list ClaimDetails;
  destination : string;
  claim_fee : Z
}.

(** The calls that leave the script, each with the type of its answer.  A
    method that changes its receiver answers the receiver's new state. *)
Inductive Ev : Type -> Type :=
| Fetch (r : Request) : Ev json   (* [await fetch(..)] and [await response.json()] *)
| WsSend (m : json) : Ev unit
| WsClose : Ev unit
| RandomBytes (n : nat) : Ev bytes
| RandomSecretKey : Ev bytes
| GetPublicKey (sk : bytes) : Ev bytes
| TxFromRaw (raw : bytes) : Ev Tx
| DeserializeSwapTree (j : json) : Ev SwapTree
| MusigCreate (sk : bytes) (pks : list bytes) : Ev Musig
| TweakMusig (m : Musig) (t : Tree) : Ev Musig
| DetectSwap (key : bytes) (tx : Tx) : Ev (option SwapOutput)
| TargetFee (rate : Z) (construct : Z -> result ClaimCall) : Ev Tx
| PreimageWitnessV1 (tx : Tx) (idx : Z) (scripts : list bytes)
    (sighash : Z) (amounts : list Z) : Ev bytes
| MusigMessage (m : Musig) (msg : bytes) : Ev Musig
| GenerateNonce (m : Musig) : Ev Musig
| AggregateNonces (m : Musig) (nonces : list (bytes * bytes)) : Ev Musig
| InitializeSession (m : Musig) : Ev Musig
| AddPartial (m : Musig) (pk sig : bytes) : Ev Musig
| SignPartial (m : Musig) : Ev Musig
| AggregatePartials (m : Musig) : Ev bytes
| UpdateInput (tx : Tx) (idx : Z) (witness : list bytes) : Ev Tx.

(** ** Programs *)

Inductive prog (A : Type) : Type :=
| Ret (a : A)
| Throw (e : exn)
| Vis (X : Type) (e : Ev X) (k : X -> prog A).
Arguments Ret {A} a.
Arguments Throw {A} e.
Arguments Vis {A X} e k.

Fixpoint bind {A B} (p : prog A) (f : A -> prog B) : prog B :=
  match p with
  | Ret a => f a
  | Throw e => Throw e
  | Vis e k => Vis e (fun x => bind (k x) f)
  end.

Definition call {X} (e : Ev X) : prog X := Vis e (fun x => Ret x).

Definition lift {A} (r : result A) : prog A :=
  match r with Ok a => Ret a | Error e => Throw e end.

Notation "x <- p ;; q" := (bind p (fun x => q))
  (at level 61, p at next level, right associativity).
Notation "p ;;; q" := (bind p (fun _ => q))
  (at level 61, right associativity).

(** ** Executions

    One external call with what it answered. *)
Inductive Act : Type :=
| act (X : Type) (e : Ev X) (r : result X).
Arguments act {X} e r.

(** [exec p tr r]: [p] can run to outcome [r] making the calls [tr], in that
    order.  A call that throws ends the program with that exception (the
    scripts have no [try]). *)
Fixpoint exec {A} (p : prog A) (tr : list Act) (r : result A) : Prop :=
  match p with
  | Ret a => tr = [] /\ r = Ok a
  | Throw e => tr = [] /\ r = Error e
  | Vis e k =>
      (exists err, tr = [act e (Error err)] /\ r = Error err) \/
      (exists x tr', tr = act e (Ok x) :: tr' /\ exec (k x) tr' r)
  end.

(** An environment answers every call; [run] is the execution it
    determines. *)
Definition Env : Type := forall X, Ev X -> result X.

Fixpoint run {A} (env : Env) (p : prog A) : list Act * result A :=
  match p with
  | Ret a => ([], Ok a)
  | Throw e => ([], Error e)
  | Vis e k =>
      match env _ e with
      | Error err => ([act e (Error err)], Error err)
      | Ok x => let (tr, r) := run env (k x) in (act e (Ok x) :: tr, r)
      end
  end.

(** ** The session

    What [chainSwap] keeps in its closure: the preimage, the one secret key
    of the session ([claimKeys] in ARK to BTC, [refundKeys] in BTC to ARK)
    and the parsed response of the swap creation. *)
Record Ctx : Type := mkCtx {
  preimage : bytes;
  keys : bytes;
  createdResponse : json
}.

Definition userLockAmount : Z := 100000.
Definition destinationAddress : string := "bcrt1qtrtsds7f6su9jgqg24r5w7k8sfw76szl626v93".
Definition arkPublicKey : result bytes :=
  hex_decode "0287cc2a12b37f6f278cd3807df0c8b8b2affde1bed8064447781ac50155754107".

(** The body of the creation request, lines 42-51. *)
Definition create_body (from to : string) (pre claimKey refundKey : bytes) : json :=
  obj [ ("userLockAmount", JNum userLockAmount);
        ("from", JStr from);
        ("to", JStr to);
        ("preimageHash", JStr (hex_encode (sha256 pre)));
        ("claimPublicKey", JStr (hex_encode claimKey));
        ("refundPublicKey", JStr (hex_encode refundKey)) ].

(** arkToBtc.ts, lines 26-53. *)
Definition arkToBtc_create : prog Ctx :=
  ark <- lift arkPublicKey;;
  pre <- call (RandomBytes 32);;
  claimKeys <- call RandomSecretKey;;
  pk <- call (GetPublicKey claimKeys);;
  created <- call (Fetch (mkReq POST PSwapChain
               (Some (create_body "ARK" "BTC" pre pk ark))));;
  Ret (mkCtx pre claimKeys created).

(** The sibling script, lines 13-41. *)
Definition btcToArk_create : prog Ctx :=
  ark <- lift arkPublicKey;;
  pre <- call (RandomBytes 32);;
  refundKeys <- call RandomSecretKey;;
  pk <- call (GetPublicKey refundKeys);;
  created <- call (Fetch (mkReq POST PSwapChain
               (Some (create_body "BTC" "ARK" pre ark pk))));;
  Ret (mkCtx pre refundKeys created).

(** The "open" listener: subscribe to the updates of this swap. *)
Definition subscribe (ctx : Ctx) : prog unit :=
  id <- lift (get (createdResponse ctx) "id");;
  call (WsSend (obj [ ("op", JStr "subscribe");
                      ("channel", JStr "swap.update");
                      ("args", JArr [arr_elem id]) ])).

(** case "transaction.lockupFailed", the same text in both scripts: GET the
    quote, POST its amount back to the same URL. *)
Definition lockupFailed (ctx : Ctx) : prog unit :=
  id <- lift (get (createdResponse ctx) "id");;
  quoteData <- call (Fetch (mkReq GET (PQuote id) None));;
  id' <- lift (get (createdResponse ctx) "id");;
  quoted <- lift (get quoteData "amount");;
  call (Fetch (mkReq POST (PQuote id') (Some (obj [("amount", quoted)]))));;;
  Ret tt.

(** [createdResponse.<details>.serverPublicKey], decoded. *)
Definition serverPublicKey (ctx : Ctx) (details : string) : result bytes :=
  match get (createdResponse ctx) details with
  | Error e => Error e
  | Ok d => match get d "serverPublicKey" with
            | Error e => Error e
            | Ok k => hex_decode_js k
            end
  end.

(** [hex.decode(msg.args[0].transaction.hex)] *)
Definition lockup_raw (msg : json) : result bytes :=
  match get msg "args" with
  | Error e => Error e
  | Ok args =>
      match get0 args with
      | Error e => Error e
      | Ok a0 =>
          match get a0 "transaction" with
          | Error e => Error e
          | Ok transaction =>
              match get transaction "hex" with
              | Error e => Error e
              | Ok txhex => hex_decode_js txhex
              end
          end
      end
  end.

(** The closure given to [targetFee] in arkToBtc.ts, lines 146-166.  The [!]
    of [detectSwap(..)!] is erased by the compiler; with no output detected
    the first read [swapOutput.script] throws. *)
Definition claim_closure (ctx : Ctx) (swapOutput : option SwapOutput)
    (lockupTx : Tx) (swapTree : SwapTree) (musig : Musig) (fee : Z)
  : result ClaimCall :=
  match swapOutput with
  | None => Error TypeError
  | Some o =>
      Ok (mkClaimCall
            [ mkClaimDetails (preimage ctx) Taproot (script o) (amount o) (vout o)
                (keys ctx) (tx_id lockupTx) swapTree (internalKey musig) true ]
            destinationAddress fee)
  end.

Definition defined {A} (o : option A) : result A :=
  match o with Some a => Ok a | None => Error TypeError end.

(** case "transaction.server.mempool" of arkToBtc.ts, lines 126-241.
    [addPartial] and [updateInput] are called for their effect on the
    receiver: what follows works on the receiver as they left it. *)
Definition arkToBtc_serverMempool (ctx : Ctx) (msg : json) : prog unit :=
  raw <- lift (lockup_raw msg);;
  lockupTx <- call (TxFromRaw raw);;
  claimDetails <- lift (get (createdResponse ctx) "claimDetails");;
  serialized <- lift (get claimDetails "swapTree");;
  swapTree <- call (DeserializeSwapTree serialized);;
  serverKey <- lift (serverPublicKey ctx "claimDetails");;
  ownKey <- call (GetPublicKey (keys ctx));;
  created <- call (MusigCreate (keys ctx) [serverKey; ownKey]);;
  musig <- call (TweakMusig created (tree swapTree));;
  swapOutput <- call (DetectSwap (aggPubkey musig) lockupTx);;
  claimTx <- call (TargetFee 1 (claim_closure ctx swapOutput lockupTx swapTree musig));;
  o <- lift (defined swapOutput);;
  sighash <- call (PreimageWitnessV1 claimTx 0 [script o] SigHash_DEFAULT [amount o]);;
  bound <- call (MusigMessage musig sighash);;
  musigMessage <- call (GenerateNonce bound);;
  id <- lift (get (createdResponse ctx) "id");;
  signedTxData <- call (Fetch (mkReq POST (PClaim id)
      (Some (obj [ ("preimage", JStr (hex_encode (preimage ctx)));
                   ("toSign", obj [ ("pubNonce", JStr (hex_encode (publicNonce musigMessage)));
                                    ("transaction", JStr (tx_hex claimTx));
                                    ("index", JNum 0) ]) ]))));;
  serverKey1 <- lift (serverPublicKey ctx "claimDetails");;
  theirNonce <- lift (get signedTxData "pubNonce");;
  nonce <- lift (hex_decode_js theirNonce);;
  aggregated <- call (AggregateNonces musigMessage [(serverKey1, nonce)]);;
  musigSession <- call (InitializeSession aggregated);;
  serverKey2 <- lift (serverPublicKey ctx "claimDetails");;
  theirPartial <- lift (get signedTxData "partialSignature");;
  partial <- lift (hex_decode_js theirPartial);;
  musigSession' <- call (AddPartial musigSession serverKey2 partial);;
  musigSigned <- call (SignPartial musigSession');;
  signature <- call (AggregatePartials musigSigned);;
  claimTx' <- call (UpdateInput claimTx 0 [signature]);;
  call (Fetch (mkReq POST PBroadcast (Some (obj [("hex", JStr (tx_hex claimTx'))]))));;;
  Ret tt.

(** case "transaction.claim.pending" of the BTC to ARK script,
    lines 122-185. *)
Definition btcToArk_claimPending (ctx : Ctx) : prog unit :=
  id <- lift (get (createdResponse ctx) "id");;
  claimDetails <- call (Fetch (mkReq GET (PClaim id) None));;
  theirKey <- lift (get claimDetails "publicKey");;
  counterparty <- lift (hex_decode_js theirKey);;
  ownKey <- call (GetPublicKey (keys ctx));;
  created <- call (MusigCreate (keys ctx) [counterparty; ownKey]);;
  lockupDetails <- lift (get (createdResponse ctx) "lockupDetails");;
  serialized <- lift (get lockupDetails "swapTree");;
  swapTree <- call (DeserializeSwapTree serialized);;
  musig <- call (TweakMusig created (tree swapTree));;
  hash <- lift (get claimDetails "transactionHash");;
  message <- lift (hex_decode_js hash);;
  bound <- call (MusigMessage musig message);;
  withNonce <- call (GenerateNonce bound);;
  serverKey <- lift (serverPublicKey ctx "lockupDetails");;
  theirNonce <- lift (get claimDetails "pubNonce");;
  nonce <- lift (hex_decode_js theirNonce);;
  aggregated <- call (AggregateNonces withNonce [(serverKey, nonce)]);;
  musigNonces <- call (InitializeSession aggregated);;
  partialSig <- call (SignPartial musigNonces);;
  id' <- lift (get (createdResponse ctx) "id");;
  call (Fetch (mkReq POST (PClaim id')
      (Some (obj [ ("signature",
                    obj [ ("partialSignature", JStr (hex_encode (ourPartialSignature partialSig)));
                          ("pubNonce", JStr (hex_encode (publicNonce partialSig))) ]) ]))));;;
  Ret tt.

(** The "message" listener up to the [switch]: [JSON.parse], the guard
    [msg.event !== "update"], and the status tag [msg.args[0].status].
    [None] is the early [return]. *)
Definition status_of (parsed : result json) : result (option (json * json)) :=
  match parsed with
  | Error e => Error e
  | Ok msg =>
      match get msg "event" with
      | Error e => Error e
      | Ok event =>
          if negb (is_str event "update") then Ok None
          else match get msg "args" with
               | Error e => Error e
               | Ok args =>
                   match get0 args with
                   | Error e => Error e
                   | Ok a0 =>
                       match get a0 "status" with
                       | Error e => Error e
                       | Ok status => Ok (Some (msg, status))
                       end
                   end
               end
      end
  end.

(** The "message" listener of arkToBtc.ts, lines 70-248.  The argument is
    the outcome of [JSON.parse] on the text received. *)
Definition arkToBtc_on_message (ctx : Ctx) (parsed : result json) : prog unit :=
  update <- lift (status_of parsed);;
  match update with
  | None => Ret tt
  | Some (msg, status) =>
      if is_str status "swap.created" then Ret tt
      else if is_str status "transaction.lockupFailed" then lockupFailed ctx
      else if is_str status "transaction.server.mempool" then arkToBtc_serverMempool ctx msg
      else if is_str status "transaction.claimed" then call WsClose
      else Ret tt
  end.

(** The "message" listener of the BTC to ARK script, lines 58-192. *)
Definition btcToArk_on_message (ctx : Ctx) (parsed : result json) : prog unit :=
  update <- lift (status_of parsed);;
  match update with
  | None => Ret tt
  | Some (msg, status) =>
      if is_str status "swap.created" then Ret tt
      else if is_str status "transaction.lockupFailed" then lockupFailed ctx
      else if is_str status "transaction.server.mempool" then Ret tt
      else if is_str status "transaction.claim.pending" then btcToArk_claimPending ctx
      else if is_str status "transaction.claimed" then call WsClose
      else Ret tt
  end.

(** The messages of a session, handled one after the other in the order
    of arrival; an exception that leaves a listener is caught nowhere in
    the scripts and ends the session. *)
Fixpoint handle_all (on_message : result json -> prog unit)
    (inbound : list (result json)) : prog unit :=
  match inbound with
  | [] => Ret tt
  | m :: rest => on_message m;;; handle_all on_message rest
  end.

Definition arkToBtc_chainSwap (inbound : list (result json)) : prog unit :=
  ctx <- arkToBtc_create;;
  subscribe ctx;;;
  handle_all (arkToBtc_on_message ctx) inbound.

Definition btcToArk_chainSwap (inbound : list (result json)) : prog unit :=
  ctx <- btcToArk_create;;
  subscribe ctx;;;
  handle_all (btcToArk_on_message ctx) inbound.

(** The two scripts side by side. *)
Inductive Flow : Type := ArkToBtc | BtcToArk.

Definition on_message (f : Flow) : Ctx -> result json -> prog unit :=
  match f with
  | ArkToBtc => arkToBtc_on_message
  | BtcToArk => btcToArk_on_message
  end.

Definition chainSwap (f : Flow) : list (result json) -> prog unit :=
  match f with
  | ArkToBtc => arkToBtc_chainSwap
  | BtcToArk => btcToArk_chainSwap
  end.

(** ** Inbound messages

    A status update as the service pushes it on the "swap.update" channel:
    the swap identifier, the status tag and what else the status carries. *)
Definition status_update (id : json) (status : string)
    (more : list (string * json)) : json :=
  JObj [ ("event", JStr "update");
         ("channel", JStr "swap.update");
         ("args", JArr [JObj (("id", id) :: ("status", JStr status) :: more)]) ].

(** The guard of the listener: [msg.event === "update"]. *)
Definition is_update (msg : json) : bool :=
  match get msg "event" with
  | Ok event => is_str event "update"
  | Error _ => false
  end.

Definition five_events (id transaction : json) : list (result json) :=
  [ Ok (status_update id "swap.created" []);
    Ok (status_update id "transaction.lockupFailed" []);
    Ok (status_update id "transaction.server.mempool" [("transaction", transaction)]);
    Ok (status_update id "transaction.claim.pending" []);
    Ok (status_update id "transaction.claimed" []) ].

(** ** Reading a trace *)

Fixpoint collect {B} (f : Act -> option B) (tr : list Act) : list B :=
  match tr with
  | [] => []
  | a :: tr' => match f a with
                | Some b => b :: collect f tr'
                | None => collect f tr'
                end
  end.

(** An HTTP request with its answer. *)
Definition as_fetch (a : Act) : option (Request * result json) :=
  match a with
  | @act X e r =>
      match e in Ev X return result X -> option (Request * result json) with
      | Fetch q => fun r => Some (q, r)
      | _ => fun _ => None
      end r
  end.


(** Answers of the quote fetches (GET .../quote). *)
Definition quote_fetch (a : Act) : option (result json) :=
  match as_fetch a with
  | Some (mkReq GET (PQuote _) _, r) => Some r
  | _ => None
  end.

(** Bodies of the quote submissions (POST .../quote). *)
Definition quote_submission (a : Act) : option (option json) :=
  match as_fetch a with
  | Some (mkReq POST (PQuote _) b, _) => Some b
  | _ => None
  end.

(** Bodies of the swap creations (POST /v2/swap/chain). *)
Definition creation (a : Act) : option json :=
  match as_fetch a with
  | Some (mkReq POST PSwapChain (Some b), _) => Some b
  | _ => None
  end.

(** Bodies of the claim submissions (POST .../claim). *)
Definition claim_submission (a : Act) : option json :=
  match as_fetch a with
  | Some (mkReq POST (PClaim _) (Some b), _) => Some b
  | _ => None
  end.

(** Answers of the claim-details fetches (GET .../claim). *)
Definition claim_details (a : Act) : option json :=
  match as_fetch a with
  | Some (mkReq GET (PClaim _) _, Ok d) => Some d
  | _ => None
  end.

(** A call that goes to the service: HTTP or WebSocket. *)
Definition outbound (a : Act) : bool :=
  match a with
  | act e _ => match e with
               | Fetch _ | WsSend _ | WsClose => true
               | _ => false
               end
  end.

Definition is_close (a : Act) : bool :=
  match a with
  | act e _ => match e with WsClose => true | _ => false end
  end.

(** Round 2 of MuSig2: [initializeSession] and [signPartial]. *)
Definition is_round2 (a : Act) : bool :=
  match a with
  | act e _ => match e with
               | InitializeSession _ | SignPartial _ => true
               | _ => false
               end
  end.

Definition is_sign_partial (a : Act) : bool :=
  match a with
  | act e _ => match e with SignPartial _ => true | _ => false end
  end.

(** Any step of the signing, from the binding of the message on. *)
Definition is_signing (a : Act) : bool :=
  match a with
  | act e _ => match e with
               | MusigMessage _ _ | GenerateNonce _ | AggregateNonces _ _
               | InitializeSession _ | AddPartial _ _ _ | SignPartial _
               | AggregatePartials _ => true
               | _ => false
               end
  end.

(** The message given to [musig.message]. *)
Definition bound_message (a : Act) : option bytes :=
  match a with
  | act e _ => match e with MusigMessage _ msg => Some msg | _ => None end
  end.

(** The public keys given to [Musig.create]. *)
Definition aggregated_keys (a : Act) : option (list bytes) :=
  match a with
  | act e _ => match e with MusigCreate _ pks => Some pks | _ => None end
  end.



(** What [detectSwap] answered. *)
Definition detection (a : Act) : option (result (option SwapOutput)) :=
  match a with
  | @act X e r =>
      match e in Ev X return result X -> option (result (option SwapOutput)) with
      | DetectSwap _ _ => fun r => Some r
      | _ => fun _ => None
      end r
  end.

(** The closure given to [targetFee]. *)
Definition fee_closure (a : Act) : option (Z -> result ClaimCall) :=
  match a with
  | act e _ => match e with TargetFee _ c => Some c | _ => None end
  end.

(** The key [detectSwap] was asked to look for. *)
Definition detection_key (a : Act) : option bytes :=
  match a with
  | act e _ => match e with DetectSwap k _ => Some k | _ => None end
  end.


(** What [randomBytes] answered. *)
Definition random_bytes (a : Act) : option bytes :=
  match a with
  | @act X e r =>
      match e in Ev X return result X -> option bytes with
      | RandomBytes _ => fun r => match r with Ok b => Some b | Error _ => None end
      | _ => fun _ => None
      end r
  end.

(** The string under [k] of a body, decoded from hex. *)
Definition hex_field (k : string) (b : json) : result bytes :=
  match get b k with
  | Ok v => hex_decode_js v
  | Error e => Error e
  end.


(** What [getPublicKey] answered. *)
Definition own_key (a : Act) : option bytes :=
  match a with
  | @act X e r =>
      match e in Ev X return result X -> option bytes with
      | GetPublicKey _ => fun r => match r with Ok k => Some k | Error _ => None end
      | _ => fun _ => None
      end r
  end.


(** The builder a [tweakMusig] returned. *)
Definition tweaked (a : Act) : option Musig :=
  match a with
  | @act X e r =>
      match e in Ev X return result X -> option Musig with
      | TweakMusig _ _ => fun r => match r with Ok m => Some m | Error _ => None end
      | _ => fun _ => None
      end r
  end.


(** The builder a [generateNonce] returned: it holds the own nonce. *)
Definition generated_nonce (a : Act) : option Musig :=
  match a with
  | @act X e r =>
      match e in Ev X return result X -> option Musig with
      | GenerateNonce _ => fun r => match r with Ok m => Some m | Error _ => None end
      | _ => fun _ => None
      end r
  end.

(** A call of [aggregateNonces] that returned: the receiver, the nonces
    given and the builder returned. *)
Definition aggregation (a : Act) : option (Musig * list (bytes * bytes) * Musig) :=
  match a with
  | @act X e r =>
      match e in Ev X return result X -> option (Musig * list (bytes * bytes) * Musig) with
      | AggregateNonces w ns =>
          fun r => match r with Ok m => Some (w, ns, m) | Error _ => None end
      | _ => fun _ => None
      end r
  end.

(** A call of [aggregateNonces], returned or not: the receiver and the
    nonces given. *)
Definition aggregation_call (a : Act) : option (Musig * list (bytes * bytes)) :=
  match a with
  | act e _ => match e with AggregateNonces w ns => Some (w, ns) | _ => None end
  end.

(** The receiver of a call of [initializeSession]. *)
Definition session_init (a : Act) : option Musig :=
  match a with
  | act e _ => match e with InitializeSession m => Some m | _ => None end
  end.

(** ** The round barrier of MuSig2

    [received_nonce seen n]: an answer of the service among [seen] carries
    the nonce [n], hex-encoded, under "pubNonce". *)
Definition received_nonce (seen : list Act) (n : bytes) : Prop :=
  exists q j, In (q, Ok j) (collect as_fetch seen) /\ hex_field "pubNonce" j = Ok n.

(** What the call [a] must find done in the calls [seen] before it:
    - [aggregateNonces] runs on a builder that [generateNonce] returned and
      is given nonces received from the service, at least one;
    - [initializeSession] runs on a builder that [aggregateNonces] returned;
    - [signPartial] runs after a call of [aggregateNonces] has returned. *)
Definition barrier_step (seen : list Act) (a : Act) : Prop :=
  (forall w ns, aggregation_call a = Some (w, ns) ->
     In w (collect generated_nonce seen) /\ ns <> [] /\
     Forall (fun kn => received_nonce seen (snd kn)) ns) /\
  (forall m, session_init a = Some m ->
     exists w ns, In (w, ns, m) (collect aggregation seen)) /\
  (is_sign_partial a = true -> collect aggregation seen <> []).

Fixpoint round_barrier (seen tr : list Act) : Prop :=
  match tr with
  | [] => True
  | a :: tr' => barrier_step seen a /\ round_barrier (seen ++ [a]) tr'
  end.

(** ** The cooperative signature of BTC to ARK, call by call

    The calls of the "transaction.claim.pending" case when every one of
    them returns: [swap] is the identifier of the session, [d] the claim
    details fetched, the other arguments are what the packages answered and
    the bytes decoded from [d] and from the creation response. *)
Definition signature_body (partialSig : Musig) : json :=
  JObj [ ("signature",
          JObj [ ("partialSignature", JStr (hex_encode (ourPartialSignature partialSig)));
                 ("pubNonce", JStr (hex_encode (publicNonce partialSig))) ]) ].

Definition claimPending_calls (ctx : Ctx) (swap d serialized answer : json)
    (counterparty ownKey message serverKey nonce : bytes) (swapTree : SwapTree)
    (created musig bound withNonce aggregated session partialSig : Musig)
  : list Act :=
  [ act (Fetch (mkReq GET (PClaim swap) None)) (Ok d);
    act (GetPublicKey (keys ctx)) (Ok ownKey);
    act (MusigCreate (keys ctx) [counterparty; ownKey]) (Ok created);
    act (DeserializeSwapTree serialized) (Ok swapTree);
    act (TweakMusig created (tree swapTree)) (Ok musig);
    act (MusigMessage musig message) (Ok bound);
    act (GenerateNonce bound) (Ok withNonce);
    act (AggregateNonces withNonce [(serverKey, nonce)]) (Ok aggregated);
    act (InitializeSession aggregated) (Ok session);
    act (SignPartial session) (Ok partialSig);
    act (Fetch (mkReq POST (PClaim swap) (Some (signature_body partialSig)))) (Ok answer) ].

(** ** Counting the calls of a session

    The quote fetches, the quote submissions, the calls of [signPartial]
    and the calls of [webSocket.close()] of a trace. *)
Record Tally : Type := mkTally {
  quote_fetches : nat;
  quote_submissions : nat;
  partial_signatures : nat;
  closes : nat
}.

Definition tally (tr : list Act) : Tally :=
  mkTally (List.length (collect quote_fetch tr))
          (List.length (collect quote_submission tr))
          (List.length (filter is_sign_partial tr))
          (List.length (filter is_close tr)).

Definition tally_add (s t : Tally) : Tally :=
  mkTally (quote_fetches s + quote_fetches t)
          (quote_submissions s + quote_submissions t)
          (partial_signatures s + partial_signatures t)
          (closes s + closes t).

Definition tally_le (s t : Tally) : Prop :=
  quote_fetches s <= quote_fetches t /\
  quote_submissions s <= quote_submissions t /\
  partial_signatures s <= partial_signatures t /\
  closes s <= closes t.

End Scripts.

(** ** Fee targeting

    Modelled from the spec: [targetFee] and [constructClaimTransaction] are
    functions of boltz-core, which is not among the sources; the scripts
    only call [targetFee(1, fee => constructClaimTransaction(.., fee))].
    Section 4.3 of the spec gives the algorithm: construct a candidate
    transaction with fee 0, measure its weight, compute fee = weight x rate,
    rebuild with that fee, and repeat until the fee implied by the new weight
    is the fee it was built with. *)
Section FeeTargeting.

Variable Draft : Type.
Variable weight : Draft -> Z.
Variable construct : Z -> result Draft.

Fixpoint targetFee_from (fuel : nat) (rate fee : Z) : result Draft :=
  match construct fee with
  | Error e => Error e
  | Ok tx =>
      if (weight tx * rate =? fee)%Z then Ok tx
      else match fuel with
           | O => Error NotConverged
           | S fuel' => targetFee_from fuel' rate (weight tx * rate)
           end
  end.

Definition targetFee_spec (fuel : nat) (rate : Z) : result Draft :=
  targetFee_from fuel rate 0.

End FeeTargeting.

(** Modelled from the spec: a claim transaction draft spends one lockup
    output to one destination output; the fee is taken off the output
    value, the weight is that of the fixed one-input one-output template,
    and an input that cannot pay the fee above the dust threshold fails
    with InsufficientAmount (spec, section 4.3). *)
Record ClaimDraft : Type := mkDraft {
  draft_input : Z;
  draft_output : Z;
  draft_weight : Z
}.

Definition draft_fee (d : ClaimDraft) : Z := draft_input d - draft_output d.

Definition construct_draft (template_weight dust input fee : Z) : result ClaimDraft :=
  if (input - fee <? dust)%Z then Error InsufficientAmount
  else Ok (mkDraft input (input - fee) template_weight).

(** ** A stand-in for the packages

    Used to run the scripts on concrete inputs.  A builder object records
    what went into it; nothing is checked, so that a run shows what the
    scripts themselves do with a value. *)
Module Toy.

Record musig : Type := mkMusig {
  m_keys : list bytes;
  m_tweak : bytes;
  m_message : bytes;
  m_nonces : list bytes;
  m_partials : list bytes
}.

Definition key_of (m : musig) : bytes := List.concat (m_keys m) ++ m_tweak m.

#[export] Instance lib : Library := {|
  Musig := musig;
  Tx := bytes;
  SwapTree := json;
  Tree := bytes;
  sha256 := fun b => rev b;
  tree := fun j => match hex_decode_js j with Ok b => b | Error _ => [] end;
  aggPubkey := key_of;
  internalKey := fun m => List.concat (m_keys m);
  publicNonce := fun m => match m_nonces m with n :: _ => n | [] => [] end;
  ourPartialSignature := fun m => m_message m ++ List.concat (m_nonces m);
  tx_id := fun tx => hex_encode (rev tx);
  tx_hex := fun tx => hex_encode tx
|}.

(** The service of a session: what it answers to the requests of the
    scripts. *)
Record service : Type := mkService {
  s_created : json;
  s_quote : json;
  s_claim : json;        (* GET .../claim *)
  s_signed : json;       (* POST .../claim *)
  s_output : option SwapOutput   (* what [detectSwap] finds *)
}.

Definition env (s : service) : Env := fun X (e : Ev X) =>
  match e in Ev X return result X with
  | Fetch r =>
      match path r, method r with
      | PSwapChain, _ => Ok (s_created s)
      | PQuote _, GET => Ok (s_quote s)
      | PQuote _, POST => Ok (JObj [])
      | PClaim _, GET => Ok (s_claim s)
      | PClaim _, POST => Ok (s_signed s)
      | PBroadcast, _ => Ok (JObj [("id", JStr "00")])
      end
  | WsSend _ => Ok tt
  | WsClose => Ok tt
  | RandomBytes n => Ok (repeat x07 n)
  | RandomSecretKey => Ok [x01]
  | GetPublicKey sk => Ok (x02 :: sk)
  | TxFromRaw raw => Ok raw
  | DeserializeSwapTree j => Ok j
  | MusigCreate sk pks => Ok (mkMusig pks [] [] [] [])
  | TweakMusig m t => Ok (mkMusig (m_keys m) t (m_message m) (m_nonces m) (m_partials m))
  | DetectSwap key tx => Ok (s_output s)
  | TargetFee rate construct =>
      match construct 1%Z with
      | Error e => Error e
      | Ok c1 => match construct (110 * rate)%Z with
                 | Error e => Error e
                 | Ok c => Ok [x00]
                 end
      end
  | PreimageWitnessV1 tx idx scripts sighash amounts => Ok (List.concat scripts)
  | MusigMessage m msg => Ok (mkMusig (m_keys m) (m_tweak m) msg (m_nonces m) (m_partials m))
  | GenerateNonce m => Ok (mkMusig (m_keys m) (m_tweak m) (m_message m) [[x09]] (m_partials m))
  | AggregateNonces m nonces =>
      Ok (mkMusig (m_keys m) (m_tweak m) (m_message m) (m_nonces m ++ map snd nonces) (m_partials m))
  | InitializeSession m => Ok m
  | AddPartial m pk sig => Ok (mkMusig (m_keys m) (m_tweak m) (m_message m) (m_nonces m) (sig :: m_partials m))
  | SignPartial m => Ok m
  | AggregatePartials m => Ok (List.concat (m_partials m))
  | UpdateInput tx idx witness => Ok (tx ++ List.concat witness)
  end.

(** A session against a service that answers as the protocol expects. *)
Definition created0 : json :=
  JObj [ ("id", JStr "swap1");
         ("claimDetails", JObj [("serverPublicKey", JStr "03aa"); ("swapTree", JStr "beef")]);
         ("lockupDetails", JObj [("serverPublicKey", JStr "03bb"); ("swapTree", JStr "cafe")]) ].

Definition claim0 (publicKey transactionHash : string) : json :=
  JObj [ ("pubNonce", JStr "0a0b");
         ("publicKey", JStr publicKey);
         ("transactionHash", JStr transactionHash) ].

Definition svc (claim : json) (output : option SwapOutput) : service :=
  mkService created0 (JObj [("amount", JNum 99000)]) claim
    (JObj [("pubNonce", JStr "0c"); ("partialSignature", JStr "0d0e")])
    output.

Definition hash0 : string :=
  "000102030405060708090a0b0c0d0e0f101112131415161718191a1b1c1d1e1f".

Definition svc0 : service :=
  svc (claim0 "03bb" hash0) (Some (mkSwapOutput [x51] 100000 0)).

Definition ctx0 : Ctx := mkCtx (repeat x07 32) [x01] created0.

Definition lockup0 : json := JObj [("hex", JStr "0102")].

Definition pending0 : result json :=
  Ok (status_update (JStr "swap1") "transaction.claim.pending" []).

End Toy.


(** ** More readers of a trace, and the tags of the listeners *)

Section Readers.

Context {L : Library}.

(** The status tags on which the listener of a script makes calls. *)
Definition acting_tags (f : Flow) : list string :=
  match f with
  | ArkToBtc =>
      [ "transaction.lockupFailed"; "transaction.server.mempool"; "transaction.claimed" ]
  | BtcToArk =>
      [ "transaction.lockupFailed"; "transaction.claim.pending"; "transaction.claimed" ]
  end.

(** [status] is one of the strings [tags] under [===]. *)
Definition tagged (status : json) (tags : list string) : bool :=
  existsb (is_str status) tags.

(** The transaction [targetFee] returned. *)
Definition fee_target (a : Act) : option Tx :=
  match a with
  | @act _ X e r =>
      match e in Ev X return result X -> option Tx with
      | TargetFee _ _ => fun r => match r with Ok t => Some t | Error _ => None end
      | _ => fun _ => None
      end r
  end.


(** A call of [musig.message] that returned: the receiver, the message and
    the builder returned. *)
Definition bound_builder (a : Act) : option (Musig * bytes * Musig) :=
  match a with
  | @act _ X e r =>
      match e in Ev X return result X -> option (Musig * bytes * Musig) with
      | MusigMessage m msg =>
          fun r => match r with Ok b => Some (m, msg, b) | Error _ => None end
      | _ => fun _ => None
      end r
  end.

(** The receiver of a call of [generateNonce]. *)
Definition nonce_call (a : Act) : option Musig :=
  match a with
  | act e _ => match e with GenerateNonce m => Some m | _ => None end
  end.

(** A call of [addPartial]: the public key and the partial signature
    given. *)
Definition partial_call (a : Act) : option (bytes * bytes) :=
  match a with
  | act e _ => match e with AddPartial _ pk sig => Some (pk, sig) | _ => None end
  end.

(** A call of [addPartial] that returned: the receiver before and after. *)
Definition partial_added (a : Act) : option (Musig * Musig) :=
  match a with
  | @act _ X e r =>
      match e in Ev X return result X -> option (Musig * Musig) with
      | AddPartial m _ _ =>
          fun r => match r with Ok m' => Some (m, m') | Error _ => None end
      | _ => fun _ => None
      end r
  end.

(** A call of [signPartial] that returned: the receiver and the builder
    returned. *)
Definition partial_signed (a : Act) : option (Musig * Musig) :=
  match a with
  | @act _ X e r =>
      match e in Ev X return result X -> option (Musig * Musig) with
      | SignPartial m =>
          fun r => match r with Ok m' => Some (m, m') | Error _ => None end
      | _ => fun _ => None
      end r
  end.

(** A call of [aggregatePartials] that returned: the receiver and the
    signature. *)
Definition aggregate_signature (a : Act) : option (Musig * bytes) :=
  match a with
  | @act _ X e r =>
      match e in Ev X return result X -> option (Musig * bytes) with
      | AggregatePartials m =>
          fun r => match r with Ok s => Some (m, s) | Error _ => None end
      | _ => fun _ => None
      end r
  end.

(** A call of [updateInput] that returned: the transaction, the input
    index, the witness given and the transaction as it was left. *)
Definition input_updated (a : Act) : option (Tx * Z * list bytes * Tx) :=
  match a with
  | @act _ X e r =>
      match e in Ev X return result X -> option (Tx * Z * list bytes * Tx) with
      | UpdateInput t i w =>
          fun r => match r with Ok t' => Some (t, i, w, t') | Error _ => None end
      | _ => fun _ => None
      end r
  end.

(** Bodies of the broadcasts (POST /v2/chain/BTC/transaction). *)
Definition broadcast (a : Act) : option (option json) :=
  match as_fetch a with
  | Some (mkReq POST PBroadcast b, _) => Some b
  | _ => None
  end.

(** The messages sent on the WebSocket. *)
Definition ws_sent (a : Act) : option json :=
  match a with
  | act e _ => match e with WsSend m => Some m | _ => None end
  end.


(** An HTTP request, answered or not. *)
Definition request (a : Act) : option Request :=
  match as_fetch a with
  | Some (q, _) => Some q
  | None => None
  end.

(** [v] is [null] or [undefined]: reading a property of it throws. *)
Definition nullish (v : json) : bool :=
  match v with JNull | JUndefined => true | _ => false end.

(** The creation request of a script, for the preimage [pre], the own
    public key [pk] and the ARK key [ark]. *)
Definition creation_request (f : Flow) (pre pk ark : bytes) : Request :=
  mkReq POST PSwapChain
    (Some match f with
          | ArkToBtc => create_body "ARK" "BTC" pre pk ark
          | BtcToArk => create_body "BTC" "ARK" pre ark pk
          end).

(** The subscription sent when the socket opens. *)
Definition subscription (id : json) : json :=
  JObj [ ("op", JStr "subscribe");
         ("channel", JStr "swap.update");
         ("args", JArr [arr_elem id]) ].

(** The calls of a session up to the first inbound message, when each of
    them returns. *)
Definition opening_calls (f : Flow) (pre key pk ark : bytes) (created id : json)
  : list Act :=
  [ act (RandomBytes 32) (Ok pre);
    act RandomSecretKey (Ok key);
    act (GetPublicKey key) (Ok pk);
    act (Fetch (creation_request f pre pk ark)) (Ok created);
    act (WsSend (subscription id)) (Ok tt) ].

(** The parsed message carries the status tag [tag]. *)
Definition has_tag (tag : string) (parsed : result json) : bool :=
  match status_of parsed with
  | Ok (Some (_, status)) => is_str status tag
  | _ => false
  end.

(** The tag on which a script signs. *)
Definition signing_tag (f : Flow) : string :=
  match f with
  | ArkToBtc => "transaction.server.mempool"
  | BtcToArk => "transaction.claim.pending"
  end.

Definition count_tag (tag : string) (inbound : list (result json)) : nat :=
  List.length (filter (has_tag tag) inbound).

(** A message on which the listener of the script returns at once: no
    status update, or an update with a tag on which the script does not
    act. *)
Definition silent (f : Flow) (parsed : result json) : bool :=
  match status_of parsed with
  | Ok None => true
  | Ok (Some (_, status)) => negb (tagged status (acting_tags f))
  | Error _ => false
  end.

(** What one message can add to the tally of a session. *)
Definition message_bound (f : Flow) (parsed : result json) : Tally :=
  mkTally (Nat.b2n (has_tag "transaction.lockupFailed" parsed))
          (Nat.b2n (has_tag "transaction.lockupFailed" parsed))
          (Nat.b2n (has_tag (signing_tag f) parsed))
          (Nat.b2n (has_tag "transaction.claimed" parsed)).

(** A call of [Transaction.fromRaw] that returned: the bytes and the
    transaction. *)
Definition parsed_tx (a : Act) : option (bytes * Tx) :=
  match a with
  | @act _ X e r =>
      match e in Ev X return result X -> option (bytes * Tx) with
      | TxFromRaw raw => fun r => match r with Ok t => Some (raw, t) | Error _ => None end
      | _ => fun _ => None
      end r
  end.

(** The swap tree [deserializeSwapTree] returned. *)
Definition deserialized (a : Act) : option SwapTree :=
  match a with
  | @act _ X e r =>
      match e in Ev X return result X -> option SwapTree with
      | DeserializeSwapTree _ => fun r => match r with Ok t => Some t | Error _ => None end
      | _ => fun _ => None
      end r
  end.

(** ** The same calls under another secret key

    [rekey k a] is the call [a] with [k] where a secret key is given: to
    [getPublicKey], to [Musig.create] and, as [privateKey], in what the
    closure of [targetFee] hands to [constructClaimTransaction]. *)
Definition rekey_details (k : bytes) (d : ClaimDetails) : ClaimDetails :=
  mkClaimDetails (cd_preimage d) (cd_type d) (cd_script d) (cd_amount d) (cd_vout d)
    k (cd_transactionId d) (cd_swapTree d) (cd_internalKey d) (cd_cooperative d).

Definition rekey_closure (k : bytes) (c : Z -> result ClaimCall) (fee : Z)
  : result ClaimCall :=
  match c fee with
  | Ok cc => Ok (mkClaimCall (map (rekey_details k) (utxos cc)) (destination cc) (claim_fee cc))
  | Error e => Error e
  end.

Definition rekey (k : bytes) (a : Act) : Act :=
  match a with
  | @act _ X e r =>
      match e in Ev X return result X -> Act with
      | GetPublicKey _ => fun r => act (GetPublicKey k) r
      | MusigCreate _ pks => fun r => act (MusigCreate k pks) r
      | TargetFee rate c => fun r => act (TargetFee rate (rekey_closure k c)) r
      | e' => fun r => act e' r
      end r
  end.

(** What goes to the service: the HTTP requests with their answers and the
    WebSocket traffic. *)
Definition to_service (a : Act) : option Act :=
  if outbound a then Some a else None.

End Readers.

(** More concrete inputs for the runs. *)
Module ToyInputs.

Import Toy.

(** A "transaction.server.mempool" update with its lockup transaction. *)
Definition mempool0 : json :=
  status_update (JStr "swap1") "transaction.server.mempool" [("transaction", lockup0)].

(** An update with a tag on which neither script acts. *)
Definition expired0 : result json :=
  Ok (status_update (JStr "swap1") "swap.expired" []).

(** The acknowledgement of a subscription: no status update. *)
Definition subscribed0 : result json :=
  Ok (JObj [("event", JStr "subscribe"); ("channel", JStr "swap.update")]).

(** A service whose quote has no amount. *)
Definition svc_no_amount : service :=
  mkService created0 (JObj [("error", JStr "no quote")]) (claim0 "03bb" hash0)
    (JObj [("pubNonce", JStr "0c"); ("partialSignature", JStr "0d0e")])
    None.

End ToyInputs.
(** * Properties *)

(** ** Theorems on the codec *)

Lemma nibbles_of_byte (x : byte) :
  nibble (hex_digit (Byte.to_N x / 16)) = Some (Byte.to_N x / 16)%N /\
  nibble (hex_digit (Byte.to_N x mod 16)) = Some (Byte.to_N x mod 16)%N /\
  byte_of_nibbles (Byte.to_N x / 16) (Byte.to_N x mod 16) = Some x.
Proof. destruct x; vm_compute; repeat split. Qed.

Lemma hex_decode_encode (b : bytes) : hex_decode (hex_encode b) = Ok b.
Proof.
  induction b as [|x b IH]; [reflexivity|].
  cbn [hex_encode hex_of_byte append hex_decode].
  destruct (nibbles_of_byte x) as (-> & -> & ->).
  now rewrite IH.
Qed.

Section Properties.
Context {L : Library}.

Lemma run_exec {A} (env : Env) (p : prog A) :
  exec p (fst (run env p)) (snd (run env p)).
Proof.
  induction p as [a|e|X e k IH]; cbn [run exec]; auto.
  destruct (env X e) as [x|err]; cbn [fst snd].
  - right. exists x, (fst (run env (k x))). specialize (IH x).
    destruct (run env (k x)) as [tr r]. cbn [fst snd] in *. auto.
  - left. exists err. auto.
Qed.

Lemma exec_bind {A B} (p : prog A) (f : A -> prog B) tr r :
  exec (bind p f) tr r <->
  (exists e, exec p tr (Error e) /\ r = Error e) \/
  (exists a tr1 tr2, exec p tr1 (Ok a) /\ exec (f a) tr2 r /\ tr = tr1 ++ tr2).
Proof.
  revert tr. induction p as [a|e|X e k IH]; intros tr; cbn [bind exec].
  - split.
    + intros H. right. exists a, [], tr. auto.
    + intros [(e & (_ & Hd) & _) | (a' & tr1 & tr2 & (-> & Ha) & H & ->)]; [discriminate|].
      injection Ha as <-. exact H.
  - split.
    + intros [-> ->]. left. exists e. auto.
    + intros [(e' & (-> & He) & ->) | (a' & tr1 & tr2 & (_ & Hd) & _)]; [|discriminate].
      injection He as ->. auto.
  - split.
    + intros [(err & -> & ->) | (x & tr' & -> & H)].
      * left. exists err. split; [left; exists err; auto | reflexivity].
      * apply IH in H. destruct H as [(e' & H & ->) | (a & tr1 & tr2 & H1 & H2 & ->)].
        -- left. exists e'. split; [right; exists x, tr'; auto | reflexivity].
        -- right. exists a, (act e (Ok x) :: tr1), tr2. split; [right; exists x, tr1; auto|]. auto.
    + intros [(e' & [(err & -> & Herr) | (x & tr' & -> & H)] & ->)
             | (a & tr1 & tr2 & [(err & _ & Hd) | (x & tr' & -> & H1)] & H2 & ->)].
      * left. exists err. split; [reflexivity|]. congruence.
      * right. exists x, tr'. split; [reflexivity|]. apply IH. left. exists e'. auto.
      * discriminate.
      * right. exists x, (tr' ++ tr2). split; [reflexivity|]. apply IH. right. exists a, tr', tr2. auto.
Qed.

Lemma exec_bind_lift {A B} (v : result A) (f : A -> prog B) tr r :
  exec (bind (lift v) f) tr r ->
  match v with
  | Ok a => exec (f a) tr r
  | Error e => tr = [] /\ r = Error e
  end.
Proof. destruct v; cbn [lift bind exec]; auto. Qed.

Lemma exec_bind_call {X B} (e : Ev X) (f : X -> prog B) tr r :
  exec (bind (call e) f) tr r ->
  (exists err, tr = [act e (Error err)] /\ r = Error err) \/
  (exists x tr', tr = act e (Ok x) :: tr' /\ exec (f x) tr' r).
Proof. cbn [call bind exec]. auto. Qed.


(** One step of an execution: the outcome of a pure read, or the answer of
    a call. *)
Ltac exec_done H :=
  cbn [exec] in H;
  let Htr := fresh "Htr" in
  let Hr := fresh "Hr" in
  destruct H as [Htr Hr]; try discriminate Hr; try (injection Hr as Hr); subst.

Ltac exec_step H :=
  lazymatch type of H with
  | exec (bind (lift (Ok _)) _) _ _ =>
      apply exec_bind_lift in H; cbv beta iota in H
  | exec (bind (lift (Error _)) _) _ _ =>
      apply exec_bind_lift in H; cbv beta iota in H
  | exec (bind (lift ?v) _) _ _ =>
      apply exec_bind_lift in H;
      first [ match goal with E : v = _ |- _ => rewrite E in H end
            | destruct v eqn:? ];
      cbv beta iota in H
  | exec (bind (call _) _) _ _ =>
      let Htr := fresh "Htr" in
      let Hr := fresh "Hr" in
      apply exec_bind_call in H;
      destruct H as [(? & Htr & Hr) | (? & ? & Htr & H)];
      [ try discriminate Hr; subst | subst ]
  | exec (call _) _ _ =>
      let Htr := fresh "Htr" in
      let Hr := fresh "Hr" in
      cbn [call exec] in H;
      destruct H as [(? & Htr & Hr) | (? & ? & Htr & H)];
      [ try discriminate Hr; subst | subst ]
  | exec (Ret _) _ _ => exec_done H
  | exec (Throw _) _ _ => exec_done H
  | _ /\ _ => exec_done H
  end.

Ltac exec_all H := repeat (exec_step H).


(** The listener on a status update whose tag is "transaction.lockupFailed"
    is the quote handler, in both scripts. *)
Lemma on_lockupFailed (f : Flow) (ctx : Ctx) id more :
  on_message f ctx (Ok (status_update id "transaction.lockupFailed" more)) =
  lockupFailed ctx.
Proof. destruct f; reflexivity. Qed.




(** What the listener does with a message that is no status update:
    nothing. *)
Lemma status_of_non_update (msg : json) :
  is_update msg = false ->
  status_of (Ok msg) =
  match get msg "event" with Ok _ => Ok None | Error e => Error e end.
Proof.
  unfold is_update, status_of. destruct (get msg "event") as [event|e]; [|reflexivity].
  now intros ->.
Qed.

(** C6, as the scripts have it: a message that is not JSON or not a status
    update makes no call at all; a status update is dispatched on its
    status tag alone, the swap identifier it carries is never read. *)
Theorem only_updates_are_dispatched (f : Flow) (ctx : Ctx) :
  (forall e tr r, exec (on_message f ctx (Error e)) tr r -> tr = [] /\ r = Error e) /\
  (forall msg tr r,
      is_update msg = false ->
      exec (on_message f ctx (Ok msg)) tr r ->
      tr = [] /\
      r = match get msg "event" with Ok _ => Ok tt | Error e => Error e end) /\
  (forall id1 id2 status more,
      on_message f ctx (Ok (status_update id1 status more)) =
      on_message f ctx (Ok (status_update id2 status more))).
Proof.
  split; [|split].
  - intros e tr r H. destruct f; cbn in H; exact H.
  - intros msg tr r Hu H.
    destruct f; unfold on_message, arkToBtc_on_message, btcToArk_on_message in H;
      rewrite (status_of_non_update _ Hu) in H;
      destruct (get msg "event"); cbn in H; exact H.
  - intros id1 id2 status more. destruct f; reflexivity.
Qed.

(** ** The round barrier *)

Ltac in_list := cbn; repeat (first [left; reflexivity | right]).

Ltac received :=
  unfold received_nonce; do 2 eexists; split; [in_list|];
  unfold hex_field;
  match goal with
  | E : get ?j "pubNonce" = Ok _ |- context [get ?j "pubNonce"] => rewrite E; assumption
  end.

Ltac barrier :=
  cbn [round_barrier app]; repeat split; intros;
  repeat match goal with
  | H : aggregation_call _ = Some _ |- _ =>
      cbn in H; first [discriminate H | injection H as <- <-]
  | H : session_init _ = Some _ |- _ =>
      cbn in H; first [discriminate H | injection H as <-]
  | H : is_sign_partial _ = true |- _ =>
      cbn in H; first [discriminate H | clear H]
  end;
  first [ solve [in_list]
        | discriminate
        | solve [repeat constructor; received]
        | solve [do 2 eexists; in_list]
        | solve [cbn; discriminate] ].

Lemma claimPending_barrier (ctx : Ctx) tr r :
  exec (btcToArk_claimPending ctx) tr r -> round_barrier [] tr.
Proof.
  intros H. unfold btcToArk_claimPending in H.
  exec_all H; barrier.
Qed.

Lemma serverMempool_barrier (ctx : Ctx) msg tr r :
  exec (arkToBtc_serverMempool ctx msg) tr r -> round_barrier [] tr.
Proof.
  intros H. unfold arkToBtc_serverMempool in H.
  exec_all H; barrier.
Qed.

Lemma lockupFailed_barrier (ctx : Ctx) tr r :
  exec (lockupFailed ctx) tr r -> round_barrier [] tr.
Proof.
  intros H. unfold lockupFailed in H.
  exec_all H; barrier.
Qed.

(** The listener is one of its cases, or nothing. *)
Lemma on_message_cases (f : Flow) (ctx : Ctx) (parsed : result json) tr r :
  exec (on_message f ctx parsed) tr r ->
  tr = [] \/
  exec (lockupFailed ctx) tr r \/
  (f = ArkToBtc /\ exists msg, parsed = Ok msg /\ exec (arkToBtc_serverMempool ctx msg) tr r) \/
  (f = BtcToArk /\ exec (btcToArk_claimPending ctx) tr r) \/
  exec (call WsClose) tr r.
Proof.
  intros H.
  destruct f; unfold on_message, arkToBtc_on_message, btcToArk_on_message in H;
    exec_step H; [| exec_done H; auto | | exec_done H; auto];
    match type of H with
    | exec (match ?u with _ => _ end) _ _ => destruct u as [[msg status]|]
    end;
    try (exec_done H; auto; fail);
    repeat match type of H with
           | exec (if ?b then _ else _) _ _ => destruct b eqn:?
           end;
    try (exec_done H; auto; fail); auto 6.
  - right. right. left. split; [reflexivity|]. exists msg. split; [|exact H].
    unfold status_of in *. destruct parsed as [m|]; [|discriminate].
    destruct (get m "event"); [|discriminate].
    destruct (negb _); [discriminate|].
    destruct (get m "args"); [|discriminate].
    destruct (get0 _); [|discriminate].
    destruct (get _ "status"); [|discriminate].
    congruence.
Qed.

(** C2: in every execution of the listener, of either script and on any
    message, [aggregateNonces] is given a nonce that the service has sent
    and runs on the builder holding the own nonce, [initializeSession] runs
    on what [aggregateNonces] returned, and [signPartial] comes after. *)
Theorem round2_after_nonce_aggregation
    (f : Flow) (ctx : Ctx) (parsed : result json) (tr : list Act) (r : result unit) :
  exec (on_message f ctx parsed) tr r -> round_barrier [] tr.
Proof.
  intros H. apply on_message_cases in H.
  destruct H as [-> | [H | [(_ & msg & _ & H) | [(_ & H) | H]]]].
  - exact I.
  - eapply lockupFailed_barrier; eassumption.
  - eapply serverMempool_barrier; eassumption.
  - eapply claimPending_barrier; eassumption.
  - cbn in H. destruct H as [(err & -> & _) | (x & tr' & -> & -> & _)]; barrier.
Qed.

(** ** The five events of a successful swap *)

Lemma collect_app {B} (f : Act -> option B) (tr1 tr2 : list Act) :
  collect f (tr1 ++ tr2) = collect f tr1 ++ collect f tr2.
Proof.
  induction tr1 as [|a tr1 IH]; [reflexivity|].
  cbn [collect app]. destruct (f a); rewrite IH; reflexivity.
Qed.

Lemma tally_app (tr1 tr2 : list Act) :
  tally (tr1 ++ tr2) = tally_add (tally tr1) (tally tr2).
Proof.
  unfold tally, tally_add; cbn [quote_fetches quote_submissions partial_signatures closes].
  now rewrite !collect_app, !filter_app, !length_app.
Qed.

Lemma on_created (f : Flow) (ctx : Ctx) id more :
  on_message f ctx (Ok (status_update id "swap.created" more)) = Ret tt.
Proof. destruct f; reflexivity. Qed.

Lemma on_serverMempool (f : Flow) (ctx : Ctx) id more :
  on_message f ctx (Ok (status_update id "transaction.server.mempool" more)) =
  match f with
  | ArkToBtc =>
      arkToBtc_serverMempool ctx (status_update id "transaction.server.mempool" more)
  | BtcToArk => Ret tt
  end.
Proof. destruct f; reflexivity. Qed.

Lemma on_claimPending (f : Flow) (ctx : Ctx) id more :
  on_message f ctx (Ok (status_update id "transaction.claim.pending" more)) =
  match f with
  | ArkToBtc => Ret tt
  | BtcToArk => btcToArk_claimPending ctx
  end.
Proof. destruct f; reflexivity. Qed.

Lemma on_claimed (f : Flow) (ctx : Ctx) id more :
  on_message f ctx (Ok (status_update id "transaction.claimed" more)) = call WsClose.
Proof. destruct f; reflexivity. Qed.

Lemma lockupFailed_tally (ctx : Ctx) tr :
  exec (lockupFailed ctx) tr (Ok tt) -> tally tr = mkTally 1 1 0 0.
Proof.
  intros H. unfold lockupFailed in H. exec_all H; reflexivity.
Qed.

Lemma serverMempool_tally (ctx : Ctx) msg tr :
  exec (arkToBtc_serverMempool ctx msg) tr (Ok tt) -> tally tr = mkTally 0 0 1 0.
Proof.
  intros H. unfold arkToBtc_serverMempool in H. exec_all H; reflexivity.
Qed.

Lemma claimPending_tally (ctx : Ctx) tr :
  exec (btcToArk_claimPending ctx) tr (Ok tt) -> tally tr = mkTally 0 0 1 0.
Proof.
  intros H. unfold btcToArk_claimPending in H. exec_all H; reflexivity.
Qed.

(** A step of a session that went through. *)
Lemma exec_seq_ok {A} (p : prog A) (q : prog unit) tr :
  exec (bind p (fun _ => q)) tr (Ok tt) ->
  exists a tr1 tr2, exec p tr1 (Ok a) /\ exec q tr2 (Ok tt) /\ tr = tr1 ++ tr2.
Proof.
  intros H. apply exec_bind in H.
  destruct H as [(e & _ & Hd) | H]; [discriminate | exact H].
Qed.

Lemma tally_le_add (a b c d : Tally) :
  tally_le a b -> tally_le c d -> tally_le (tally_add a c) (tally_add b d).
Proof. unfold tally_le, tally_add; cbn. lia. Qed.

Lemma tally_le_trans (a b c : Tally) : tally_le a b -> tally_le b c -> tally_le a c.
Proof. unfold tally_le. lia. Qed.

Ltac tally_bound := unfold tally_le; cbn; lia.

Lemma lockupFailed_tally_le (ctx : Ctx) tr r :
  exec (lockupFailed ctx) tr r -> tally_le (tally tr) (mkTally 1 1 0 0).
Proof.
  intros H. unfold lockupFailed in H. exec_all H; tally_bound.
Qed.

Lemma serverMempool_tally_le (ctx : Ctx) msg tr r :
  exec (arkToBtc_serverMempool ctx msg) tr r -> tally_le (tally tr) (mkTally 0 0 1 0).
Proof.
  intros H. unfold arkToBtc_serverMempool in H. exec_all H; tally_bound.
Qed.

Lemma claimPending_tally_le (ctx : Ctx) tr r :
  exec (btcToArk_claimPending ctx) tr r -> tally_le (tally tr) (mkTally 0 0 1 0).
Proof.
  intros H. unfold btcToArk_claimPending in H. exec_all H; tally_bound.
Qed.

(** A step of a session, gone through or not: the calls of the step, then
    the calls of what follows it, if it was reached. *)
Lemma exec_seq {A} (p : prog A) (q : prog unit) tr r :
  exec (bind p (fun _ => q)) tr r ->
  exists tr1 tr2 r1, tr = tr1 ++ tr2 /\ exec p tr1 r1 /\ (tr2 = [] \/ exec q tr2 r).
Proof.
  intros H. apply exec_bind in H.
  destruct H as [(e & H & _) | (a & tr1 & tr2 & H1 & H2 & ->)].
  - exists tr, [], (Error e). rewrite app_nil_r. auto.
  - exists tr1, tr2, (Ok a). auto.
Qed.

(** C4: while the listener goes through the five events of a swap, in
    order, it never fetches or submits a second quote, never signs a second
    partial signature and never closes twice; when it has gone through them
    all, it has fetched one quote, submitted one quote, signed one partial
    signature and, last of all its calls, closed the socket on
    "transaction.claimed". *)
Theorem five_events_claimed
    (f : Flow) (ctx : Ctx) (id transaction : json) (tr : list Act) (r : result unit) :
  exec (handle_all (on_message f ctx) (five_events id transaction)) tr r ->
  tally_le (tally tr) (mkTally 1 1 1 1) /\
  (r = Ok tt ->
   tally tr = mkTally 1 1 1 1 /\ exists tr', tr = tr' ++ [act WsClose (Ok tt)]).
Proof.
  unfold five_events, handle_all.
  rewrite on_created, on_lockupFailed, on_serverMempool, on_claimPending, on_claimed.
  intros H. split.
  - apply exec_seq in H. destruct H as (t1 & tr1 & r1 & -> & [-> _] & H).
    cbn [app]. destruct H as [-> | H]; [tally_bound|].
    apply exec_seq in H. destruct H as (t2 & tr2 & r2 & -> & H2 & H).
    apply lockupFailed_tally_le in H2. rewrite tally_app.
    apply (@tally_le_add _ (mkTally 1 1 0 0) _ (mkTally 0 0 1 1)); [exact H2|].
    destruct H as [-> | H]; [tally_bound|].
    apply exec_seq in H. destruct H as (t3 & tr3 & r3 & -> & H3 & H).
    assert (H34 : tally_le (tally t3) (mkTally 0 0 1 0) /\
                  (tr3 = [] \/
                   exists t4 tr4, tr3 = t4 ++ tr4 /\
                     tally_le (tally (t3 ++ t4)) (mkTally 0 0 1 0) /\
                     (tr4 = [] \/ exec (bind (call WsClose) (fun _ => Ret tt)) tr4 r))).
    { destruct f.
      - apply serverMempool_tally_le in H3. split; [exact H3|].
        destruct H as [-> | H]; [auto | right].
        apply exec_seq in H. destruct H as (t4 & tr4 & r4 & -> & [-> _] & H).
        exists [], tr4. rewrite app_nil_r. auto.
      - destruct H3 as [-> _]. split; [tally_bound|].
        destruct H as [-> | H]; [auto | right].
        apply exec_seq in H. destruct H as (t4 & tr4 & r4 & -> & H4 & H).
        apply claimPending_tally_le in H4. exists t4, tr4. auto. }
    destruct H34 as (B3 & [-> | (t4 & tr4 & -> & B34 & H5)]).
    + rewrite app_nil_r. eapply tally_le_trans; [exact B3 | tally_bound].
    + rewrite app_assoc, tally_app.
      apply (@tally_le_add _ (mkTally 0 0 1 0) _ (mkTally 0 0 0 1)); [exact B34|].
      destruct H5 as [-> | H5]; [tally_bound|].
      exec_all H5; tally_bound.
  - intros ->.
    apply exec_seq_ok in H. destruct H as (u1 & t1 & tr1 & H1 & H & ->).
    apply exec_seq_ok in H. destruct H as (u2 & t2 & tr2 & H2 & H & ->).
    apply exec_seq_ok in H. destruct H as (u3 & t3 & tr3 & H3 & H & ->).
    apply exec_seq_ok in H. destruct H as (u4 & t4 & tr4 & H4 & H & ->).
    apply exec_seq_ok in H. destruct H as (u5 & t5 & tr5 & H5 & H & ->).
    destruct u1, u2, u3, u4, u5.
    destruct H as [-> _]. destruct H1 as [-> _].
    apply lockupFailed_tally in H2.
    cbn in H5. destruct H5 as [(err & _ & Hd) | (x & t' & -> & -> & _)]; [discriminate|].
    destruct x.
    assert (H34 : tally (t3 ++ t4) = mkTally 0 0 1 0).
    { rewrite tally_app. destruct f.
      - apply serverMempool_tally in H3. destruct H4 as [-> _]. now rewrite H3.
      - apply claimPending_tally in H4. destruct H3 as [-> _]. now rewrite H4. }
    split.
    + cbn [app]. rewrite (tally_app t2), (app_assoc t3 t4), (tally_app (t3 ++ t4)), H2, H34.
      reflexivity.
    + exists (t2 ++ t3 ++ t4). cbn [app]. now rewrite <- !app_assoc.
Qed.

(** ** No swap output in the lockup transaction *)

(** C9: in ARK to BTC, when [detectSwap] finds no output paying the
    tweaked aggregate key in the lockup transaction of a
    "transaction.server.mempool" event, the listener throws; it has made no
    HTTP or WebSocket call and no step of the signing, and the closure it
    gave to [targetFee] throws on every fee. *)
Theorem no_swap_output_no_claim
    (ctx : Ctx) (id : json) (more : list (string * json))
    (tr : list Act) (r : result unit) :
  exec (on_message ArkToBtc ctx
          (Ok (status_update id "transaction.server.mempool" more))) tr r ->
  In (Ok None) (collect detection tr) ->
  (exists e, r = Error e) /\
  existsb outbound tr = false /\
  existsb is_signing tr = false /\
  (forall c fee, In c (collect fee_closure tr) -> c fee = Error TypeError).
Proof.
  rewrite on_serverMempool. unfold arkToBtc_serverMempool.
  intros H Hin.
  exec_all H; cbn in Hin; try contradiction;
    destruct Hin as [Hin|[]]; try discriminate Hin; injection Hin as ->;
    try discriminate.
  all: repeat split; eauto.
  all: cbn; intros c fee [<-|[]]; reflexivity.
Qed.

(** ** The cooperative signature of BTC to ARK *)

Lemma claimPending_sound (ctx : Ctx) (tr : list Act) :
  exec (btcToArk_claimPending ctx) tr (Ok tt) ->
  exists swap d lockupDetails serialized answer counterparty ownKey message serverKey nonce
         swapTree created musig bound withNonce aggregated session partialSig,
    get (createdResponse ctx) "id" = Ok swap /\
    get (createdResponse ctx) "lockupDetails" = Ok lockupDetails /\
    get lockupDetails "swapTree" = Ok serialized /\
    serverPublicKey ctx "lockupDetails" = Ok serverKey /\
    hex_field "publicKey" d = Ok counterparty /\
    hex_field "transactionHash" d = Ok message /\
    hex_field "pubNonce" d = Ok nonce /\
    tr = claimPending_calls ctx swap d serialized answer counterparty ownKey message
           serverKey nonce swapTree created musig bound withNonce aggregated session
           partialSig.
Proof.
  unfold btcToArk_claimPending, claimPending_calls, signature_body.
  intros H. exec_all H.
  do 18 eexists. repeat apply conj.
  8: reflexivity.
  all: unfold hex_field; try eassumption;
    repeat match goal with
           | E : get ?j ?k = Ok _ |- context [get ?j ?k] => rewrite E
           end; first [eassumption | reflexivity].
Qed.

Lemma claimPending_complete (ctx : Ctx) (tr : list Act) :
  (exists swap d lockupDetails serialized answer counterparty ownKey message serverKey nonce
         swapTree created musig bound withNonce aggregated session partialSig,
    get (createdResponse ctx) "id" = Ok swap /\
    get (createdResponse ctx) "lockupDetails" = Ok lockupDetails /\
    get lockupDetails "swapTree" = Ok serialized /\
    serverPublicKey ctx "lockupDetails" = Ok serverKey /\
    hex_field "publicKey" d = Ok counterparty /\
    hex_field "transactionHash" d = Ok message /\
    hex_field "pubNonce" d = Ok nonce /\
    tr = claimPending_calls ctx swap d serialized answer counterparty ownKey message
           serverKey nonce swapTree created musig bound withNonce aggregated session
           partialSig) ->
  exec (btcToArk_claimPending ctx) tr (Ok tt).
Proof.
  unfold btcToArk_claimPending, claimPending_calls, signature_body.
  intros (swap & d & lockupDetails & serialized & answer & counterparty & ownKey & message
          & serverKey & nonce & swapTree & created & musig & bound & withNonce
          & aggregated & session & partialSig
          & Hid & Hld & Hser & Hsk & Hpk & Hh & Hn & ->).
  unfold hex_field in Hpk, Hh, Hn.
  destruct (get d "publicKey") as [v1|] eqn:E1; [|discriminate].
  destruct (get d "transactionHash") as [v2|] eqn:E2; [|discriminate].
  destruct (get d "pubNonce") as [v3|] eqn:E3; [|discriminate].
  rewrite Hid. cbn [lift bind call exec]. right. do 2 eexists. split; [reflexivity|].
  rewrite E1. cbn [lift bind call exec]. rewrite Hpk. cbn [lift bind call exec].
  right. do 2 eexists. split; [reflexivity|].
  right. do 2 eexists. split; [reflexivity|].
  rewrite Hld. cbn [lift bind call exec]. rewrite Hser. cbn [lift bind call exec].
  right. do 2 eexists. split; [reflexivity|].
  right. do 2 eexists. split; [reflexivity|].
  rewrite E2. cbn [lift bind call exec]. rewrite Hh. cbn [lift bind call exec].
  right. do 2 eexists. split; [reflexivity|].
  right. do 2 eexists. split; [reflexivity|].
  rewrite Hsk. cbn [lift bind call exec]. rewrite E3. cbn [lift bind call exec].
  rewrite Hn. cbn [lift bind call exec].
  right. do 2 eexists. split; [reflexivity|].
  right. do 2 eexists. split; [reflexivity|].
  right. do 2 eexists. split; [reflexivity|].
  right. do 2 eexists. split; [reflexivity|].
  auto.
Qed.

(** C10: on "transaction.claim.pending" the BTC to ARK listener goes
    through exactly when it has made the calls of [claimPending_calls]: the
    message it binds and signs is the [transactionHash] of the claim
    details, hex-decoded, and what it submits is the partial signature over
    it.  Nothing else is asked of the hash: every value that decodes, of
    any length, is signed. *)
Theorem claimPending_signs_the_given_hash
    (ctx : Ctx) (id : json) (more : list (string * json)) (tr : list Act) :
  exec (on_message BtcToArk ctx
          (Ok (status_update id "transaction.claim.pending" more))) tr (Ok tt) <->
  exists swap d lockupDetails serialized answer counterparty ownKey message serverKey nonce
         swapTree created musig bound withNonce aggregated session partialSig,
    get (createdResponse ctx) "id" = Ok swap /\
    get (createdResponse ctx) "lockupDetails" = Ok lockupDetails /\
    get lockupDetails "swapTree" = Ok serialized /\
    serverPublicKey ctx "lockupDetails" = Ok serverKey /\
    hex_field "publicKey" d = Ok counterparty /\
    hex_field "transactionHash" d = Ok message /\
    hex_field "pubNonce" d = Ok nonce /\
    tr = claimPending_calls ctx swap d serialized answer counterparty ownKey message
           serverKey nonce swapTree created musig bound withNonce aggregated session
           partialSig.
Proof.
  rewrite on_claimPending. split.
  - apply claimPending_sound.
  - apply claimPending_complete.
Qed.

(** ** Hex fields of the service *)

Lemma hex_decode_js_encode (b : bytes) : hex_decode_js (JStr (hex_encode b)) = Ok b.
Proof. apply hex_decode_encode. Qed.

Ltac in_cases :=
  repeat match goal with
         | H : In _ (collect _ _) |- _ => cbn in H
         | H : In _ [] |- _ => destruct H
         | H : In _ (_ :: _) |- _ => destruct H as [H|H]
         | H : False |- _ => destruct H
         | H : _ \/ _ |- _ => destruct H as [H|H]
         | H : (_, _) = (_, _) |- _ => injection H as <- <-
         | H : @eq json _ _ |- _ => subst
         | H : @eq bytes _ _ |- _ => subst
         | H : @eq (list _) _ _ |- _ => subst
         end.

Ltac decoded :=
  unfold hex_field;
  repeat match goal with
         | E : get ?j ?k = Ok _ |- context [get ?j ?k] => rewrite E
         end;
  try assumption.


(** ** The derived aggregate key *)

Ltac split_cases H :=
  cbn in H; first [discriminate H | injection H as <- <- <-].


(** ** The preimage and its hash *)

Lemma serverMempool_reveals (ctx : Ctx) msg tr r :
  exec (arkToBtc_serverMempool ctx msg) tr r ->
  collect creation tr = [] /\ collect random_bytes tr = [] /\
  forall b, In b (collect claim_submission tr) ->
            get b "preimage" = Ok (JStr (hex_encode (preimage ctx))).
Proof.
  intros H. unfold arkToBtc_serverMempool in H.
  exec_all H; repeat apply conj; try reflexivity; intros b Hb; in_cases; reflexivity.
Qed.

Lemma lockupFailed_reveals (ctx : Ctx) tr r :
  exec (lockupFailed ctx) tr r ->
  collect creation tr = [] /\ collect random_bytes tr = [] /\
  collect claim_submission tr = [].
Proof.
  intros H. unfold lockupFailed in H.
  exec_all H; repeat apply conj; reflexivity.
Qed.

Lemma on_message_reveals (ctx : Ctx) parsed tr r :
  exec (on_message ArkToBtc ctx parsed) tr r ->
  collect creation tr = [] /\ collect random_bytes tr = [] /\
  forall b, In b (collect claim_submission tr) ->
            get b "preimage" = Ok (JStr (hex_encode (preimage ctx))).
Proof.
  intros H. apply on_message_cases in H.
  destruct H as [-> | [H | [(_ & msg & _ & H) | [(Hf & _) | H]]]].
  - repeat apply conj; try reflexivity. intros b [].
  - apply lockupFailed_reveals in H. destruct H as (-> & -> & ->).
    repeat apply conj; try reflexivity. intros b [].
  - eapply serverMempool_reveals; eassumption.
  - discriminate Hf.
  - cbn in H. destruct H as [(err & -> & _) | (x & tr' & -> & -> & _)];
      repeat apply conj; try reflexivity; intros b [].
Qed.

Lemma handle_all_reveals (ctx : Ctx) inbound tr r :
  exec (handle_all (on_message ArkToBtc ctx) inbound) tr r ->
  collect creation tr = [] /\ collect random_bytes tr = [] /\
  forall b, In b (collect claim_submission tr) ->
            get b "preimage" = Ok (JStr (hex_encode (preimage ctx))).
Proof.
  revert tr. induction inbound as [|m inbound IH]; intros tr H; cbn [handle_all] in H.
  - destruct H as [-> _]. repeat apply conj; try reflexivity. intros b [].
  - apply exec_bind in H.
    destruct H as [(e & H & _) | (u & tr1 & tr2 & H1 & H2 & ->)].
    + eapply on_message_reveals; eassumption.
    + apply on_message_reveals in H1. apply IH in H2.
      destruct H1 as (C1 & R1 & P1), H2 as (C2 & R2 & P2).
      rewrite !collect_app, C1, C2, R1, R2. repeat apply conj; try reflexivity.
      intros b Hb. apply in_app_or in Hb. destruct Hb; auto.
Qed.

(** The creation of the swap: either it stops short of the request, or the
    request carries the hash of the bytes [randomBytes] answered. *)
Lemma create_hash tr r :
  exec arkToBtc_create tr r ->
  collect claim_submission tr = [] /\
  match r with
  | Error _ =>
      forall b, In b (collect creation tr) ->
        exists P, collect random_bytes tr = [P] /\
                  get b "preimageHash" = Ok (JStr (hex_encode (sha256 P)))
  | Ok ctx =>
      collect random_bytes tr = [preimage ctx] /\
      forall b, In b (collect creation tr) ->
        get b "preimageHash" = Ok (JStr (hex_encode (sha256 (preimage ctx))))
  end.
Proof.
  intros H. unfold arkToBtc_create in H.
  exec_all H; repeat apply conj; try reflexivity; intros b Hb; in_cases;
    try (eexists; split; reflexivity); reflexivity.
Qed.

Lemma subscribe_silent (ctx : Ctx) tr r :
  exec (subscribe ctx) tr r ->
  collect creation tr = [] /\ collect random_bytes tr = [] /\
  collect claim_submission tr = [].
Proof.
  intros H. unfold subscribe in H.
  exec_all H; repeat apply conj; reflexivity.
Qed.

(** C3: in every execution of the ARK to BTC session, on whatever inbound
    messages, the preimage hash of the creation request is the hex of
    sha256 of the bytes [P] that [randomBytes(32)] answered, and every
    claim submission reveals the hex of the same [P]: hashing what is
    revealed gives back what was recorded. *)
Theorem preimage_hash_roundtrip
    (inbound : list (result json)) (tr : list Act) (r : result unit)
    (created claimed : json) :
  exec (chainSwap ArkToBtc inbound) tr r ->
  In created (collect creation tr) ->
  In claimed (collect claim_submission tr) ->
  exists P,
    collect random_bytes tr = [P] /\
    get created "preimageHash" = Ok (JStr (hex_encode (sha256 P))) /\
    get claimed "preimage" = Ok (JStr (hex_encode P)) /\
    hex_field "preimage" claimed = Ok P /\
    hex_field "preimageHash" created = Ok (sha256 P).
Proof.
  unfold chainSwap, arkToBtc_chainSwap. intros H Hc Hp.
  assert (Hmain : exists P, collect random_bytes tr = [P] /\
             get created "preimageHash" = Ok (JStr (hex_encode (sha256 P))) /\
             get claimed "preimage" = Ok (JStr (hex_encode P))).
  { apply exec_bind in H.
    destruct H as [(e & H & _) | (ctx & tr1 & tr2 & H1 & H2 & ->)].
    - apply create_hash in H. destruct H as [Hn _]. rewrite Hn in Hp. destruct Hp.
    - apply create_hash in H1. destruct H1 as (Hn & HP & Hh).
      assert (H2' : collect creation tr2 = [] /\ collect random_bytes tr2 = [] /\
                    forall b, In b (collect claim_submission tr2) ->
                      get b "preimage" = Ok (JStr (hex_encode (preimage ctx)))).
      { apply exec_bind in H2.
        destruct H2 as [(e & H2 & _) | (u & t1 & t2 & Hs & Hh2 & ->)].
        - apply subscribe_silent in H2. destruct H2 as (-> & -> & ->).
          repeat apply conj; try reflexivity. intros b [].
        - apply subscribe_silent in Hs. destruct Hs as (S1 & S2 & S3).
          apply handle_all_reveals in Hh2. destruct Hh2 as (A1 & A2 & A3).
          rewrite !collect_app, S1, S2, S3, A1, A2. repeat apply conj; try reflexivity.
          exact A3. }
      destruct H2' as (C2 & R2 & P2).
      rewrite collect_app in Hc, Hp. rewrite C2, app_nil_r in Hc. rewrite Hn in Hp.
      exists (preimage ctx). rewrite collect_app, HP, R2. repeat apply conj; auto. }
  destruct Hmain as (P & HP & Hh & Hr). exists P.
  repeat apply conj; auto; unfold hex_field.
  - rewrite Hr. apply hex_decode_js_encode.
  - rewrite Hh. apply hex_decode_js_encode.
Qed.

(** ** Fee targeting *)

Section FeeTargetingProperties.

Variable Draft : Type.
Variable weight : Draft -> Z.
Variable fee_of : Draft -> Z.
Variable construct : Z -> result Draft.

(** What the iteration returns was built with the fee its own weight
    implies. *)
Lemma targetFee_from_fixed (fuel : nat) (rate fee : Z) (tx : Draft) :
  targetFee_from weight construct fuel rate fee = Ok tx ->
  construct (weight tx * rate) = Ok tx.
Proof.
  revert fee. induction fuel as [|fuel IH]; intros fee; cbn [targetFee_from];
    destruct (construct fee) as [t|e] eqn:E; try discriminate;
    destruct (weight t * rate =? fee)%Z eqn:Ew; try discriminate.
  - intros [= <-]. apply Z.eqb_eq in Ew. now rewrite Ew.
  - intros [= <-]. apply Z.eqb_eq in Ew. now rewrite Ew.
  - apply IH.
Qed.

(** Started from the fee its weight implies, the iteration returns the
    same transaction at once. *)
Lemma targetFee_from_idempotent (fuel : nat) (rate : Z) (tx : Draft) :
  construct (weight tx * rate) = Ok tx ->
  targetFee_from weight construct fuel rate (weight tx * rate) = Ok tx.
Proof.
  intros E. destruct fuel; cbn [targetFee_from]; rewrite E, Z.eqb_refl; reflexivity.
Qed.

(** C8: when the transactions of the template all weigh [w] and pay the
    fee they were built with, fee targeting at rate [rate] returns, after at
    most two constructions, a transaction whose fee is its weight times the
    rate, so that fee / weight is the rate; started again from the fee that
    this transaction's weight implies, it returns the same transaction. *)
Theorem fee_targeting_fixed_point (rate w : Z) (fuel : nat) :
  (0 < w)%Z ->
  (forall fee tx, construct fee = Ok tx -> weight tx = w /\ fee_of tx = fee) ->
  is_ok (construct 0) = true ->
  is_ok (construct (w * rate)) = true ->
  exists tx,
    targetFee_spec weight construct (S fuel) rate = Ok tx /\
    fee_of tx = (weight tx * rate)%Z /\
    (Z.abs (fee_of tx / weight tx - rate) <= 1)%Z /\
    forall fuel',
      targetFee_from weight construct fuel' rate (weight tx * rate) = Ok tx.
Proof.
  intros Hw Htpl H0 H1.
  destruct (construct 0) as [t0|] eqn:E0; [|discriminate].
  destruct (construct (w * rate)%Z) as [t1|] eqn:E1; [|discriminate].
  destruct (Htpl _ _ E0) as [W0 F0]. destruct (Htpl _ _ E1) as [W1 F1].
  assert (Hrun : targetFee_spec weight construct (S fuel) rate = Ok t1).
  { unfold targetFee_spec. cbn [targetFee_from]. rewrite E0, W0.
    destruct (w * rate =? 0)%Z eqn:Ez.
    - apply Z.eqb_eq in Ez. rewrite Ez in E1. congruence.
    - destruct fuel; cbn [targetFee_from]; rewrite E1, W1, Z.eqb_refl; reflexivity. }
  exists t1. split; [exact Hrun|].
  split; [now rewrite W1, F1|].
  split.
  - rewrite F1, W1, Z.mul_comm, Z.div_mul by lia. rewrite Z.sub_diag. cbn. lia.
  - intros fuel'. apply targetFee_from_idempotent. now rewrite W1.
Qed.

End FeeTargetingProperties.

(** The drafts of the template weigh the same and pay the fee asked. *)
Lemma construct_draft_template (w dust input fee : Z) (tx : ClaimDraft) :
  construct_draft w dust input fee = Ok tx ->
  draft_weight tx = w /\ draft_fee tx = fee.
Proof.
  unfold construct_draft. destruct (Z.ltb_spec (input - fee) dust) as [Hlt|Hge].
  - discriminate.
  - intros E. injection E as E. subst tx. unfold draft_fee.
    change (w = w /\ (input - (input - fee))%Z = fee). split; [reflexivity | lia].
Qed.

(** * The rest of the listeners and of the session *)

(** ** The guard and the dispatch *)

Lemma get_error (v : json) (k : string) (e : exn) :
  get v k = Error e <-> nullish v = true /\ e = TypeError.
Proof.
  destruct v; cbn; split; try (intros [H1 H2]; discriminate); try discriminate;
    try (intros [= <-]; auto); intros [_ ->]; reflexivity.
Qed.

Lemma get0_error (v : json) (e : exn) :
  get0 v = Error e <-> nullish v = true /\ e = TypeError.
Proof.
  destruct v; cbn; split; try (intros [H1 H2]; discriminate); try discriminate;
    try (intros [= <-]; auto); intros [_ ->]; reflexivity.
Qed.

(** X1: a status update whose tag is not one on which the script acts
    ("swap.created", a tag of the other script, a refund or expiry tag, a
    tag that is no string) makes the listener return at once: no call, no
    exception. *)
Theorem other_tags_are_ignored
    (f : Flow) (ctx : Ctx) (parsed : result json) (msg status : json)
    (tr : list Act) (r : result unit) :
  status_of parsed = Ok (Some (msg, status)) ->
  tagged status (acting_tags f) = false ->
  exec (on_message f ctx parsed) tr r ->
  tr = [] /\ r = Ok tt.
Proof.
  intros Hs Ht H.
  destruct f; unfold on_message, arkToBtc_on_message, btcToArk_on_message in H;
    rewrite Hs in H; cbn [lift bind] in H;
    unfold tagged, acting_tags in Ht; cbn [existsb] in Ht;
    apply orb_false_iff in Ht; destruct Ht as [T1 Ht];
    apply orb_false_iff in Ht; destruct Ht as [T2 Ht];
    apply orb_false_iff in Ht; destruct Ht as [T3 _];
    rewrite ?T1, ?T2, ?T3 in H;
    repeat match type of H with
           | exec (if ?b then _ else _) _ _ => destruct b
           end; exact H.
Qed.

(** X2: the listener throws in its guard exactly when the text is not
    JSON, or the message is [null], or it is an update whose [args] or
    [args[0]] is [null] or missing; the exception is then a TypeError (the
    SyntaxError of [JSON.parse] apart) and no call has been made. *)
Theorem malformed_message_throws_before_any_call
    (f : Flow) (ctx : Ctx) (parsed : result json) (e : exn) :
  (status_of parsed = Error e <->
   parsed = Error e \/
   exists msg, parsed = Ok msg /\ e = TypeError /\
     (nullish msg = true \/
      is_update msg = true /\
      exists args, get msg "args" = Ok args /\
        (nullish args = true \/
         exists a0, get0 args = Ok a0 /\ nullish a0 = true))) /\
  (status_of parsed = Error e ->
   forall tr r, exec (on_message f ctx parsed) tr r -> tr = [] /\ r = Error e).
Proof.
  split.
  - unfold status_of. destruct parsed as [msg|e0].
    + destruct (get msg "event") as [event|e1] eqn:Ee.
      * destruct (is_str event "update") eqn:Eu; cbn [negb].
        -- destruct (get msg "args") as [args|e2] eqn:Ea.
           ++ destruct (get0 args) as [a0|e3] eqn:E0.
              ** destruct (get a0 "status") as [st|e4] eqn:Est.
                 --- split; [discriminate|].
                     intros [Hd | (m & [= <-] & _ & [Hn | (_ & args' & Ha & [Hn | (a0' & H0 & Hn)])])];
                       try discriminate.
                     +++ destruct msg; cbn in Hn, Ee; discriminate.
                     +++ rewrite Ea in Ha. injection Ha as <-.
                         destruct args; cbn in Hn, E0; discriminate.
                     +++ rewrite Ea in Ha. injection Ha as <-. rewrite E0 in H0.
                         injection H0 as <-. destruct a0; cbn in Hn, Est; discriminate.
                 --- apply get_error in Est. destruct Est as [Hn ->]. split.
                     +++ intros [= <-]. right. exists msg. repeat split; auto.
                         right. split; [unfold is_update; rewrite Ee; exact Eu|]. exists args. split; [exact Ea|].
                         right. exists a0. auto.
                     +++ intros [Hd | (m & _ & -> & _)]; [discriminate | reflexivity].
              ** apply get0_error in E0. destruct E0 as [Hn ->]. split.
                 --- intros [= <-]. right. exists msg. repeat split; auto.
                     right. split; [unfold is_update; rewrite Ee; exact Eu|]. exists args. auto.
                 --- intros [Hd | (m & _ & -> & _)]; [discriminate | reflexivity].
           ++ apply get_error in Ea. destruct Ea as [Hn ->]. split.
              ** intros [= <-]. right. exists msg. repeat split; auto.
              ** intros [Hd | (m & _ & -> & _)]; [discriminate | reflexivity].
        -- split; [discriminate|].
           intros [Hd | (m & [= <-] & _ & [Hn | (Hu & _)])]; try discriminate.
           ++ destruct msg; cbn in Hn, Ee; discriminate.
           ++ unfold is_update in Hu. rewrite Ee, Eu in Hu. discriminate.
      * apply get_error in Ee. destruct Ee as [Hn ->]. split.
        -- intros [= <-]. right. exists msg. repeat split; auto.
        -- intros [Hd | (m & _ & -> & _)]; [discriminate | reflexivity].
    + split.
      * intros [= ->]. auto.
      * intros [[= ->] | (m & Hd & _)]; [reflexivity | discriminate].
  - intros Hs tr r H.
    destruct f; unfold on_message, arkToBtc_on_message, btcToArk_on_message in H;
      rewrite Hs in H; exact H.
Qed.

(** ** The quote handler in full *)

(** X3: every way the quote handler can run.  Without a readable creation
    response it throws before any call; when the GET throws, or answers
    [null], nothing is submitted; otherwise the one submission carries the
    amount of the quote, and an empty object when the quote has none. *)
Theorem lockupFailed_every_run (ctx : Ctx) (tr : list Act) (r : result unit) :
  exec (lockupFailed ctx) tr r ->
  match collect quote_fetch tr with
  | [] => tr = [] /\ r = Error TypeError /\ nullish (createdResponse ctx) = true
  | [Error e] => List.length tr = 1 /\ r = Error e
  | [Ok quoteData] =>
      match get quoteData "amount" with
      | Error _ =>
          List.length tr = 1 /\ r = Error TypeError /\ nullish quoteData = true
      | Ok JUndefined =>
          List.length tr = 2 /\ collect quote_submission tr = [Some (JObj [])]
      | Ok quoted =>
          List.length tr = 2 /\
          collect quote_submission tr = [Some (JObj [("amount", quoted)])]
      end
  | _ => False
  end.
Proof.
  intros H. unfold lockupFailed in H. exec_all H; cbn [collect quote_fetch as_fetch].
  all: try match goal with
           | E : get _ "amount" = Error _ |- _ =>
               rewrite E; apply get_error in E; destruct E as [? ->]
           end.
  all: try match goal with
           | E : get _ "amount" = Ok ?a |- _ => rewrite E; destruct a
           end.
  all: try match goal with
           | E : get (createdResponse _) "id" = Error _ |- _ =>
               apply get_error in E; destruct E as [? ->]
           end.
  all: cbn; auto.
Qed.

(** ** Whom the listeners talk to *)

(** X4: whatever message it handles, the listener of either script sends
    HTTP requests only for the swap of its own session: every request is a
    quote or claim request under the identifier of the creation response, or
    the broadcast; it never creates another swap and never sends on the
    WebSocket. *)
Theorem requests_are_for_the_own_swap
    (f : Flow) (ctx : Ctx) (parsed : result json) (tr : list Act) (r : result unit) :
  exec (on_message f ctx parsed) tr r ->
  collect ws_sent tr = [] /\
  forall q, In q (collect request tr) ->
    (f = ArkToBtc /\ method q = POST /\ path q = PBroadcast) \/
    exists id, get (createdResponse ctx) "id" = Ok id /\
               (path q = PQuote id \/ path q = PClaim id).
Proof.
  intros H. apply on_message_cases in H.
  destruct H as [-> | [H | [(-> & msg & _ & H) | [(_ & H) | H]]]].
  - split; [reflexivity | intros q []].
  - unfold lockupFailed in H.
    exec_all H; (split; [reflexivity|]); intros q Hq; in_cases; try contradiction; try subst q;
      right; eexists; split; try reflexivity; cbn; auto.
  - unfold arkToBtc_serverMempool in H.
    exec_all H; (split; [reflexivity|]); intros q Hq; in_cases; try contradiction; try subst q;
      first [ left; repeat split; reflexivity
            | right; eexists; split; [reflexivity | cbn; auto] ].
  - unfold btcToArk_claimPending in H.
    exec_all H; (split; [reflexivity|]); intros q Hq; in_cases; try contradiction; try subst q;
      right; eexists; split; try reflexivity; cbn; auto.
  - cbn in H. destruct H as [(err & -> & _) | (x & tr' & -> & -> & _)];
      (split; [reflexivity | intros q []]).
Qed.

(** ** What the ARK to BTC claim sends and broadcasts *)

Tactic Notation "provenance" integer(n) :=
  do n eexists; repeat apply conj; revgoals;
  try reflexivity; try solve [in_list].


(** X6: in ARK to BTC what is broadcast is the claim transaction after
    [updateInput] has put the aggregated signature in the witness of input
    0: the transaction is the one [targetFee] returned, the signature is
    what [aggregatePartials] returned on the builder [signPartial]
    returned, and [signPartial] ran on the session to which the partial
    signature of the service had been added. *)
Theorem broadcast_carries_the_aggregate_signature
    (ctx : Ctx) (msg : json) (tr : list Act) (r : result unit) (b : option json) :
  exec (arkToBtc_serverMempool ctx msg) tr r ->
  In b (collect broadcast tr) ->
  exists claimTx session session' signed signature claimTx',
    In claimTx (collect fee_target tr) /\
    In (session, session') (collect partial_added tr) /\
    In (session', signed) (collect partial_signed tr) /\
    In (signed, signature) (collect aggregate_signature tr) /\
    In (claimTx, 0%Z, [signature], claimTx') (collect input_updated tr) /\
    b = Some (JObj [("hex", JStr (tx_hex claimTx'))]).
Proof.
  intros H Hb. unfold arkToBtc_serverMempool in H.
  exec_all H; in_cases; try contradiction; try subst b; provenance 6.
Qed.

(** X7: the public key given with the nonce of the service, and in ARK to
    BTC with its partial signature, is the server key of the creation
    response.  In ARK to BTC that same key is the one aggregated with the
    own public key; in BTC to ARK the aggregated key is the [publicKey] of
    the claim details instead. *)
Theorem server_key_of_the_creation_response (ctx : Ctx) :
  (forall msg tr r,
      exec (arkToBtc_serverMempool ctx msg) tr r ->
      (forall pks, In pks (collect aggregated_keys tr) ->
         exists sk own, serverPublicKey ctx "claimDetails" = Ok sk /\
                        In own (collect own_key tr) /\ pks = [sk; own]) /\
      (forall w ns, In (w, ns) (collect aggregation_call tr) ->
         exists sk n, serverPublicKey ctx "claimDetails" = Ok sk /\ ns = [(sk, n)]) /\
      (forall pk sig, In (pk, sig) (collect partial_call tr) ->
         serverPublicKey ctx "claimDetails" = Ok pk)) /\
  (forall tr r,
      exec (btcToArk_claimPending ctx) tr r ->
      (forall pks, In pks (collect aggregated_keys tr) ->
         exists d k own, In d (collect claim_details tr) /\
                         hex_field "publicKey" d = Ok k /\
                         In own (collect own_key tr) /\ pks = [k; own]) /\
      (forall w ns, In (w, ns) (collect aggregation_call tr) ->
         exists sk n, serverPublicKey ctx "lockupDetails" = Ok sk /\ ns = [(sk, n)]) /\
      collect partial_call tr = []).
Proof.
  split.
  - intros msg tr r H. unfold arkToBtc_serverMempool in H.
    exec_all H; repeat apply conj; intros; in_cases; try contradiction;
      try reflexivity;
      try (do 2 eexists; repeat apply conj; revgoals;
           first [reflexivity | solve [in_list]]).
  - intros tr r H. unfold btcToArk_claimPending in H.
    exec_all H; repeat apply conj; intros; in_cases; try contradiction;
      try reflexivity;
      try (do 2 eexists; repeat apply conj; revgoals;
           first [reflexivity | solve [in_list]]);
      try (do 3 eexists; repeat apply conj; revgoals;
           first [reflexivity | solve [in_list] | decoded]).
    all: decoded.
Qed.

(** ** One message, one nonce *)

(** X8: handling one inbound message, the listener of either script binds
    at most one message for signing and generates at most one nonce, and it
    generates the nonce on the builder to which that message has been
    bound: no nonce exists before its message and none serves two
    messages. *)
Theorem one_message_one_nonce
    (f : Flow) (ctx : Ctx) (parsed : result json) (tr : list Act) (r : result unit) :
  exec (on_message f ctx parsed) tr r ->
  List.length (collect bound_message tr) <= 1 /\
  List.length (collect nonce_call tr) <= 1 /\
  forall b, In b (collect nonce_call tr) ->
    exists musig msg, In (musig, msg, b) (collect bound_builder tr).
Proof.
  intros H. apply on_message_cases in H.
  destruct H as [-> | [H | [(-> & msg & _ & H) | [(_ & H) | H]]]].
  - cbn. repeat apply conj; auto. intros b [].
  - unfold lockupFailed in H.
    exec_all H; cbn; repeat apply conj; auto; intros b [].
  - unfold arkToBtc_serverMempool in H.
    exec_all H; repeat apply conj; try (cbn; lia);
      intros b Hb; in_cases; try contradiction; try subst b; do 2 eexists; in_list.
  - unfold btcToArk_claimPending in H.
    exec_all H; repeat apply conj; try (cbn; lia);
      intros b Hb; in_cases; try contradiction; try subst b; do 2 eexists; in_list.
  - cbn in H. destruct H as [(err & -> & _) | (x & tr' & -> & -> & _)];
      cbn; repeat apply conj; auto; intros b [].
Qed.

(** ** The preimage in BTC to ARK *)

(** X9: in BTC to ARK the listener does not use the preimage: what it
    does on a message is the same whatever the preimage is, and no claim
    submission carries a "preimage". *)
Theorem btcToArk_keeps_the_preimage :
  (forall (p1 p2 k : bytes) (created : json) (parsed : result json),
      on_message BtcToArk (mkCtx p1 k created) parsed =
      on_message BtcToArk (mkCtx p2 k created) parsed) /\
  (forall (ctx : Ctx) (parsed : result json) tr r b,
      exec (on_message BtcToArk ctx parsed) tr r ->
      In b (collect claim_submission tr) ->
      get b "preimage" = Ok JUndefined).
Proof.
  split.
  - reflexivity.
  - intros ctx parsed tr r b H Hb. apply on_message_cases in H.
    destruct H as [-> | [H | [(Hf & _) | [(_ & H) | H]]]].
    + destruct Hb.
    + apply lockupFailed_reveals in H. destruct H as (_ & _ & Hn).
      rewrite Hn in Hb. destruct Hb.
    + discriminate Hf.
    + unfold btcToArk_claimPending in H.
      exec_all H; in_cases; try contradiction; reflexivity.
    + cbn in H. destruct H as [(err & -> & _) | (x & tr' & -> & -> & _)]; destruct Hb.
Qed.

(** ** The opening of a session *)

Lemma arkPublicKey_decodes : exists ark, arkPublicKey = Ok ark /\ List.length ark = 33.
Proof. vm_compute. eexists. split; reflexivity. Qed.

Lemma chainSwap_opening
    (f : Flow) (inbound : list (result json)) (tr : list Act) (r : result unit) :
  exec (chainSwap f inbound) tr r ->
  ((exists e, r = Error e) /\ List.length tr <= 5 /\
   forall q, In q (collect request tr) -> path q = PSwapChain) \/
  exists pre key pk ark created id rest,
    arkPublicKey = Ok ark /\
    get created "id" = Ok id /\
    tr = opening_calls f pre key pk ark created id ++ rest /\
    exec (handle_all (on_message f (mkCtx pre key created)) inbound) rest r.
Proof.
  intros H.
  assert (Hc : exists create, chainSwap f inbound =
                 bind create (fun ctx => bind (subscribe ctx)
                    (fun _ => handle_all (on_message f ctx) inbound)) /\
               forall t (o : result Ctx), exec create t o ->
                 match o with
                 | Error _ => List.length t <= 4 /\
                     forall q, In q (collect request t) -> path q = PSwapChain
                 | Ok ctx => exists pk ark, arkPublicKey = Ok ark /\
                     t = [ act (RandomBytes 32) (Ok (preimage ctx));
                           act RandomSecretKey (Ok (keys ctx));
                           act (GetPublicKey (keys ctx)) (Ok pk);
                           act (Fetch (creation_request f (preimage ctx) pk ark))
                               (Ok (createdResponse ctx)) ]
                 end).
  { destruct f; [exists arkToBtc_create | exists btcToArk_create];
      (split; [reflexivity|]); intros t o Hx;
      [unfold arkToBtc_create in Hx | unfold btcToArk_create in Hx];
      exec_all Hx; cbn;
      try (split; [lia|]; intros q Hq; in_cases; try contradiction; subst q; reflexivity);
      try (do 2 eexists; split; reflexivity). }
  destruct Hc as (create & Heq & Hcreate). rewrite Heq in H. clear Heq.
  apply exec_bind in H.
  destruct H as [(e & Hx & ->) | (ctx & tr1 & tr2 & Hx & H & ->)].
  - left. apply Hcreate in Hx. destruct Hx as [Hl Hq].
    split; [eauto|]. split; [lia | exact Hq].
  - apply Hcreate in Hx. destruct Hx as (pk & ark & Hark & ->).
    apply exec_bind in H.
    destruct H as [(e & Hs & ->) | (u & t1 & t2 & Hs & H & ->)].
    + left. split; [eauto|]. unfold subscribe in Hs.
      exec_all Hs; cbn; (split; [lia|]);
        intros q Hq; in_cases; try contradiction; subst q; reflexivity.
    + right. unfold subscribe in Hs. exec_all Hs.
      destruct ctx as [pre key created]. cbn [preimage keys createdResponse] in *.
      match goal with E : get created "id" = Ok ?i |- _ =>
        exists pre, key, pk, ark, created, i, t2 end.
      repeat apply conj; auto.
      match goal with x : unit |- _ => destruct x end. reflexivity.
Qed.

(** X10: a session of either script that handles any message at all has
    begun with exactly these calls, each of which returned: the preimage and
    the secret key are drawn, the own public key derived, the swap created
    with the hash of that preimage and that public key, and the
    subscription sent for the identifier the creation answered; the
    listener then runs with that preimage, key and creation response.
    Otherwise the session has stopped with an exception within those five
    calls. *)
Theorem session_opening
    (f : Flow) (inbound : list (result json)) (tr : list Act) (r : result unit) :
  exec (chainSwap f inbound) tr r ->
  ((exists e, r = Error e) /\ List.length tr <= 5 /\
   forall q, In q (collect request tr) -> path q = PSwapChain) \/
  exists pre key pk ark created id rest,
    arkPublicKey = Ok ark /\
    get created "id" = Ok id /\
    tr = opening_calls f pre key pk ark created id ++ rest /\
    exec (handle_all (on_message f (mkCtx pre key created)) inbound) rest r.
Proof. apply chainSwap_opening. Qed.

(** ** Sequences of inbound messages *)



Lemma silent_is_skip (f : Flow) (ctx : Ctx) (parsed : result json) :
  silent f parsed = true -> on_message f ctx parsed = Ret tt.
Proof.
  unfold silent. intros Hs.
  destruct (status_of parsed) as [[[msg status]|]|e] eqn:E; [| |discriminate].
  - apply negb_true_iff in Hs.
    unfold tagged in Hs.
    destruct f; unfold on_message, arkToBtc_on_message, btcToArk_on_message;
      rewrite E; cbn [lift bind];
      cbn [acting_tags existsb] in Hs;
      apply orb_false_iff in Hs; destruct Hs as [T1 Hs];
      apply orb_false_iff in Hs; destruct Hs as [T2 Hs];
      apply orb_false_iff in Hs; destruct Hs as [T3 _];
      rewrite ?T1, ?T2, ?T3;
      repeat match goal with
             | |- (if ?b then _ else _) = _ => destruct b
             end; reflexivity.
  - destruct f; unfold on_message, arkToBtc_on_message, btcToArk_on_message;
      rewrite E; reflexivity.
Qed.

(** X12: a message that is no status update, or an update whose tag the
    script does not act on, can be taken out of the inbound sequence (or
    put into it) anywhere: the session is the same program. *)
Theorem silent_messages_are_transparent
    (f : Flow) (ctx : Ctx) (parsed : result json) (l1 l2 : list (result json)) :
  silent f parsed = true ->
  handle_all (on_message f ctx) (l1 ++ parsed :: l2) =
  handle_all (on_message f ctx) (l1 ++ l2).
Proof.
  intros Hs. induction l1 as [|m l1 IH]; cbn [app handle_all].
  - rewrite (silent_is_skip f ctx parsed Hs). reflexivity.
  - rewrite IH. reflexivity.
Qed.

Lemma tally_le_nil (t : Tally) : tally_le (tally []) t.
Proof. unfold tally_le; cbn; lia. Qed.

Lemma on_message_bound (f : Flow) (ctx : Ctx) (parsed : result json) tr r :
  exec (on_message f ctx parsed) tr r ->
  tally_le (tally tr) (message_bound f parsed).
Proof.
  intros H. unfold message_bound, has_tag.
  destruct f; unfold on_message, arkToBtc_on_message, btcToArk_on_message in H;
    (exec_step H; [| exec_done H; apply tally_le_nil]);
    match type of H with
    | exec (match ?u with _ => _ end) _ _ => destruct u as [[msg status]|]
    end;
    try (exec_done H; apply tally_le_nil);
    cbn [signing_tag];
    repeat match type of H with
           | exec (if ?b then _ else _) _ _ =>
               let E := fresh "E" in destruct b eqn:E; rewrite ?E
           end;
    try (exec_done H; apply tally_le_nil).
  all: try (apply lockupFailed_tally_le in H; eapply tally_le_trans; [exact H|];
            unfold tally_le; cbn; lia).
  all: try (apply serverMempool_tally_le in H; eapply tally_le_trans; [exact H|];
            unfold tally_le; cbn; lia).
  all: try (apply claimPending_tally_le in H; eapply tally_le_trans; [exact H|];
            unfold tally_le; cbn; lia).
  all: exec_all H; unfold tally_le; cbn; lia.
Qed.

Lemma count_tag_cons (tag : string) (m : result json) (l : list (result json)) :
  count_tag tag (m :: l) = Nat.b2n (has_tag tag m) + count_tag tag l.
Proof. unfold count_tag. cbn [filter]. destruct (has_tag tag m); reflexivity. Qed.

(** X13: over any sequence of inbound messages, the session fetches and
    submits at most one quote per "transaction.lockupFailed" update, signs
    at most one partial signature per update with the signing tag of the
    script, and closes at most once per "transaction.claimed" update;
    other messages add nothing. *)
Theorem calls_are_bounded_by_the_updates
    (f : Flow) (ctx : Ctx) (inbound : list (result json))
    (tr : list Act) (r : result unit) :
  exec (handle_all (on_message f ctx) inbound) tr r ->
  tally_le (tally tr)
    (mkTally (count_tag "transaction.lockupFailed" inbound)
             (count_tag "transaction.lockupFailed" inbound)
             (count_tag (signing_tag f) inbound)
             (count_tag "transaction.claimed" inbound)).
Proof.
  revert tr. induction inbound as [|m inbound IH]; intros tr H; cbn [handle_all] in H.
  - destruct H as [-> _]. apply tally_le_nil.
  - rewrite !count_tag_cons. apply exec_seq in H.
    destruct H as (t1 & t2 & r1 & -> & H1 & H2).
    rewrite tally_app.
    apply (@tally_le_add _ (message_bound f m) _
             (mkTally (count_tag "transaction.lockupFailed" inbound)
                      (count_tag "transaction.lockupFailed" inbound)
                      (count_tag (signing_tag f) inbound)
                      (count_tag "transaction.claimed" inbound))).
    + eapply on_message_bound; eassumption.
    + destruct H2 as [-> | H2]; [apply tally_le_nil | apply IH; exact H2].
Qed.

(** ** The closure given to targetFee *)

(** X14: when [detectSwap] has found the swap output, the closure given
    to [targetFee] builds, for every fee, a claim of exactly that output
    (its script, amount and index in the lockup transaction parsed from the
    event), as a cooperative Taproot spend with the preimage and the key of
    the session, to the fixed destination address, with the fee passed on
    unchanged. *)
Theorem claim_closure_spends_the_detected_output
    (ctx : Ctx) (msg : json) (tr : list Act) (r : result unit)
    (c : Z -> result ClaimCall) (o : SwapOutput) :
  exec (arkToBtc_serverMempool ctx msg) tr r ->
  In c (collect fee_closure tr) ->
  In (Ok (Some o)) (collect detection tr) ->
  exists raw lockupTx swapTree musig,
    lockup_raw msg = Ok raw /\
    In (raw, lockupTx) (collect parsed_tx tr) /\
    In swapTree (collect deserialized tr) /\
    In musig (collect tweaked tr) /\
    In (aggPubkey musig) (collect detection_key tr) /\
    forall fee,
      c fee = Ok (mkClaimCall
                    [ mkClaimDetails (preimage ctx) Taproot (script o) (amount o) (vout o)
                        (keys ctx) (tx_id lockupTx) swapTree (internalKey musig) true ]
                    destinationAddress fee).
Proof.
  intros H Hc Ho. unfold arkToBtc_serverMempool in H.
  exec_all H; cbn in Hc, Ho; try contradiction;
    destruct Hc as [<-|[]]; destruct Ho as [Ho|[]]; try discriminate Ho;
    injection Ho as ->;
    do 4 eexists; repeat apply conj; revgoals;
    try (intros fee; reflexivity); try solve [in_list]; reflexivity.
Qed.

(** ** The secret key *)

Lemma to_service_rekey (k : bytes) (tr : list Act) :
  collect to_service (map (rekey k) tr) = collect to_service tr.
Proof.
  induction tr as [|a tr IH]; [reflexivity|].
  cbn [map collect].
  assert (Ha : to_service (rekey k a) = to_service a)
    by (destruct a as [X e r]; destruct e; reflexivity).
  rewrite Ha, IH. reflexivity.
Qed.

(** Building an execution call by call. *)
Lemma exec_call_error {X B} (e : Ev X) (f : X -> prog B) (err : exn) :
  exec (bind (call e) f) [act e (Error err)] (Error err).
Proof. cbn [call bind exec]. left. exists err. auto. Qed.

Lemma exec_call_ok {X B} (e : Ev X) (f : X -> prog B) (x : X) tr r :
  exec (f x) tr r -> exec (bind (call e) f) (act e (Ok x) :: tr) r.
Proof. intros H. cbn [call bind exec]. right. exists x, tr. auto. Qed.

Lemma exec_vis_error {X B} (e : Ev X) (k : X -> prog B) (err : exn) :
  exec (Vis e k) [act e (Error err)] (Error err).
Proof. cbn [exec]. left. exists err. auto. Qed.

Lemma exec_vis_ok {X B} (e : Ev X) (k : X -> prog B) (x : X) tr r :
  exec (k x) tr r -> exec (Vis e k) (act e (Ok x) :: tr) r.
Proof. intros H. cbn [exec]. right. exists x, tr. auto. Qed.

Lemma exec_last_call {X} (e : Ev X) (out : result X) :
  exec (call e) [act e out] out.
Proof.
  cbn [call exec]. destruct out as [x|err].
  - right. exists x, []. repeat split.
  - left. exists err. auto.
Qed.

Lemma exec_lift_ok {A B} (a : A) (f : A -> prog B) tr r :
  exec (f a) tr r -> exec (bind (lift (Ok a)) f) tr r.
Proof. intros H. exact H. Qed.

Lemma exec_lift_error {A B} (e : exn) (f : A -> prog B) :
  exec (bind (lift (Error e : result A)) f) [] (Error e).
Proof. cbn [lift bind exec]. auto. Qed.

Ltac exec_build :=
  repeat lazymatch goal with
         | |- exec (bind (lift (Ok _)) _) _ _ => apply exec_lift_ok
         | |- exec (bind (lift (Error _)) _) _ _ => apply exec_lift_error
         | |- exec (bind (lift ?v) _) _ _ =>
             match goal with E : v = _ |- _ => rewrite E end
         | |- exec (bind (call _) _) _ _ =>
             first [apply exec_call_error | apply exec_call_ok]
         | |- exec (Vis _ _) _ _ =>
             first [apply exec_vis_error | apply exec_vis_ok]
         | |- exec (call _) _ _ => apply exec_last_call
         | |- exec (Ret _) _ _ => cbn [exec]; split; reflexivity
         | |- exec (Throw _) _ _ => cbn [exec]; split; reflexivity
         end.

Lemma claimPending_rekey (pre k1 k2 : bytes) (created : json) tr r :
  exec (btcToArk_claimPending (mkCtx pre k1 created)) tr r ->
  exec (btcToArk_claimPending (mkCtx pre k2 created)) (map (rekey k2) tr) r.
Proof.
  unfold btcToArk_claimPending, serverPublicKey.
  cbn [createdResponse keys preimage]. intros H.
  exec_all H; cbn [map rekey]; exec_build.
Qed.

Lemma serverMempool_rekey (pre k1 k2 : bytes) (created : json) msg tr r :
  exec (arkToBtc_serverMempool (mkCtx pre k1 created) msg) tr r ->
  exec (arkToBtc_serverMempool (mkCtx pre k2 created) msg) (map (rekey k2) tr) r.
Proof.
  unfold arkToBtc_serverMempool, serverPublicKey.
  cbn [createdResponse keys preimage]. intros H.
  exec_all H; cbn [map rekey];
    repeat match goal with x : option SwapOutput |- _ => destruct x end;
    exec_build.
Qed.

Lemma lockupFailed_rekey (pre k1 k2 : bytes) (created : json) tr r :
  exec (lockupFailed (mkCtx pre k1 created)) tr r ->
  exec (lockupFailed (mkCtx pre k2 created)) (map (rekey k2) tr) r.
Proof.
  unfold lockupFailed. cbn [createdResponse]. intros H.
  exec_all H; cbn [map rekey]; exec_build.
Qed.

(** X15: the secret key of the session goes to [getPublicKey], to
    [Musig.create] and, as [privateKey], to [constructClaimTransaction],
    and nowhere else.  Under another secret key, and the packages answering
    the same, the listener of either script makes the same calls but for the
    key given to those three, and what goes to the service (every HTTP
    request with its body, the WebSocket traffic) is the same. *)
Theorem secret_key_stays_in_the_packages
    (f : Flow) (pre k1 k2 : bytes) (created : json) (parsed : result json)
    (tr : list Act) (r : result unit) :
  exec (on_message f (mkCtx pre k1 created) parsed) tr r ->
  exec (on_message f (mkCtx pre k2 created) parsed) (map (rekey k2) tr) r /\
  collect to_service (map (rekey k2) tr) = collect to_service tr.
Proof.
  intros H. split; [|apply to_service_rekey].
  destruct f; unfold on_message, arkToBtc_on_message, btcToArk_on_message in *;
    (exec_step H; [| exec_done H; cbn [map]; exec_build]);
    apply exec_lift_ok;
    match type of H with
    | exec (match ?u with _ => _ end) _ _ => destruct u as [[msg status]|]
    end;
    try (exec_done H; cbn [map exec]; auto; fail);
    repeat match type of H with
           | exec (if ?b then _ else _) _ _ => destruct b
           end;
    try (exec_done H; cbn [map exec]; auto; fail).
  all: try (eapply lockupFailed_rekey; exact H).
  all: try (eapply serverMempool_rekey; exact H).
  all: try (eapply claimPending_rekey; exact H).
  all: exec_all H; cbn [map rekey]; exec_build.
Qed.

(** ** The creation request *)

Ltac hex_fields :=
  repeat apply conj; try reflexivity; try eassumption;
  unfold hex_field; cbn [get assoc obj obj_fields create_body String.eqb Ascii.eqb Bool.eqb];
  try apply hex_decode_js_encode.

(** X16: the creation request of a session carries the hash of the
    preimage just drawn and the public key derived from the secret key just
    drawn.  In ARK to BTC that key is the claim key and the ARK key the
    refund key; in BTC to ARK it is the other way round. *)
Theorem creation_carries_the_session_keys :
  (forall tr r b,
      exec arkToBtc_create tr r ->
      In b (collect creation tr) ->
      exists pre pk ark,
        collect random_bytes tr = [pre] /\
        collect own_key tr = [pk] /\
        arkPublicKey = Ok ark /\
        get b "from" = Ok (JStr "ARK") /\
        get b "to" = Ok (JStr "BTC") /\
        get b "userLockAmount" = Ok (JNum userLockAmount) /\
        hex_field "preimageHash" b = Ok (sha256 pre) /\
        hex_field "claimPublicKey" b = Ok pk /\
        hex_field "refundPublicKey" b = Ok ark) /\
  (forall tr r b,
      exec btcToArk_create tr r ->
      In b (collect creation tr) ->
      exists pre pk ark,
        collect random_bytes tr = [pre] /\
        collect own_key tr = [pk] /\
        arkPublicKey = Ok ark /\
        get b "from" = Ok (JStr "BTC") /\
        get b "to" = Ok (JStr "ARK") /\
        get b "userLockAmount" = Ok (JNum userLockAmount) /\
        hex_field "preimageHash" b = Ok (sha256 pre) /\
        hex_field "claimPublicKey" b = Ok ark /\
        hex_field "refundPublicKey" b = Ok pk).
Proof.
  split; intros tr r b H Hb;
    [unfold arkToBtc_create in H | unfold btcToArk_create in H];
    exec_all H; in_cases; try contradiction; do 3 eexists; hex_fields.
Qed.

(** ** One swap per session *)




End Properties.

(** * Runs on concrete sessions *)

Import Toy.


Lemma only_updates_are_dispatched_witness :
  let msg := JObj [("event", JStr "subscribe"); ("channel", JStr "swap.update")] in
  let out := run (env svc0) (on_message BtcToArk ctx0 (Ok msg)) in
  fst out = [] /\ snd out = Ok tt.
Proof.
  cbv zeta.
  apply (proj1 (proj2 (@only_updates_are_dispatched lib BtcToArk ctx0))
           (JObj [("event", JStr "subscribe"); ("channel", JStr "swap.update")])).
  - reflexivity.
  - apply run_exec.
Defined.

(** C6 as stated fails: the session of swap "swap1" receives a status
    update addressed to "swap2" and fetches and accepts a quote for its own
    swap. *)
Lemma foreign_update_is_handled :
  ~ (forall (ctx : Ctx) (id swap : json) status more tr r,
        get (createdResponse ctx) "id" = Ok swap ->
        id <> swap ->
        exec (on_message ArkToBtc ctx (Ok (status_update id status more))) tr r ->
        tr = []).
Proof.
  intros H.
  specialize (H ctx0 (JStr "swap2") (JStr "swap1") "transaction.lockupFailed" [] _ _
                eq_refl ltac:(discriminate) (run_exec (env svc0) _)).
  vm_compute in H. discriminate H.
Defined.

Lemma round2_after_nonce_aggregation_witness :
  let tr := fst (run (env svc0)
                   (on_message BtcToArk ctx0
                      (Ok (status_update (JStr "swap1") "transaction.claim.pending" [])))) in
  existsb is_sign_partial tr = true /\ round_barrier [] tr.
Proof.
  cbv zeta. split.
  - vm_compute. reflexivity.
  - apply (@round2_after_nonce_aggregation lib BtcToArk ctx0
             (Ok (status_update (JStr "swap1") "transaction.claim.pending" [])) _ _
             (run_exec (env svc0) _)).
Defined.

Lemma five_events_claimed_witness :
  let tr := fst (run (env svc0)
                   (handle_all (on_message ArkToBtc ctx0)
                      (five_events (JStr "swap1") lockup0))) in
  tally tr = mkTally 1 1 1 1 /\ exists tr', tr = tr' ++ [act WsClose (Ok tt)].
Proof.
  cbv zeta.
  apply (proj2 (@five_events_claimed lib ArkToBtc ctx0 (JStr "swap1") lockup0 _ _
                  (run_exec (env svc0)
                     (handle_all (on_message ArkToBtc ctx0)
                        (five_events (JStr "swap1") lockup0))))).
  reflexivity.
Defined.

Lemma no_swap_output_no_claim_witness :
  let out := run (env (svc (claim0 "03bb" hash0) None))
               (on_message ArkToBtc ctx0
                  (Ok (status_update (JStr "swap1") "transaction.server.mempool"
                         [("transaction", lockup0)]))) in
  (exists e, snd out = Error e) /\
  existsb outbound (fst out) = false /\
  existsb is_signing (fst out) = false /\
  (forall c fee, In c (collect fee_closure (fst out)) -> c fee = Error TypeError).
Proof.
  cbv zeta.
  apply (@no_swap_output_no_claim lib ctx0 (JStr "swap1") [("transaction", lockup0)]).
  - apply run_exec.
  - vm_compute. left. reflexivity.
Defined.

(** A one-byte "hash" is bound and signed like any other. *)
Lemma claimPending_signs_the_given_hash_witness :
  let m := mkMusig [] [] [] [] [] in
  exec (on_message BtcToArk ctx0
          (Ok (status_update (JStr "swap1") "transaction.claim.pending" [])))
       (claimPending_calls ctx0 (JStr "swap1") (claim0 "03bb" "00") (JStr "cafe") (JObj [])
          [x03; xbb] [x02; x01] [x00] [x03; xbb] [x0a; x0b] (JStr "cafe")
          m m m m m m m)
       (Ok tt).
Proof.
  cbv zeta.
  apply (proj2 (@claimPending_signs_the_given_hash lib ctx0 (JStr "swap1") [] _)).
  exists (JStr "swap1"), (claim0 "03bb" "00"),
    (JObj [("serverPublicKey", JStr "03bb"); ("swapTree", JStr "cafe")]), (JStr "cafe"), (JObj []),
    [x03; xbb], [x02; x01], [x00], [x03; xbb], [x0a; x0b], (JStr "cafe").
  do 7 eexists. repeat apply conj; reflexivity.
Defined.





Lemma preimage_hash_roundtrip_witness :
  let tr := fst (run (env svc0)
                   (chainSwap ArkToBtc
                      [Ok (status_update (JStr "swap1") "transaction.server.mempool"
                             [("transaction", lockup0)])])) in
  exists P,
    collect random_bytes tr = [P] /\
    get (hd JNull (collect creation tr)) "preimageHash" = Ok (JStr (hex_encode (sha256 P))) /\
    get (hd JNull (collect claim_submission tr)) "preimage" = Ok (JStr (hex_encode P)) /\
    hex_field "preimage" (hd JNull (collect claim_submission tr)) = Ok P /\
    hex_field "preimageHash" (hd JNull (collect creation tr)) = Ok (sha256 P).
Proof.
  cbv zeta.
  apply (@preimage_hash_roundtrip lib _ _ _ _ _ (run_exec (env svc0) _)).
  - vm_compute. left. reflexivity.
  - vm_compute. left. reflexivity.
Defined.

(** The same five events in the BTC to ARK session. *)
Example five_events_btcToArk :
  tally (fst (run (env svc0)
                (handle_all (on_message BtcToArk ctx0)
                   (five_events (JStr "swap1") lockup0)))) = mkTally 1 1 1 1.
Proof. vm_compute. reflexivity. Qed.

Lemma fee_targeting_fixed_point_witness :
  exists tx,
    targetFee_spec draft_weight (construct_draft 444 330 100000) 1 1 = Ok tx /\
    draft_fee tx = (draft_weight tx * 1)%Z /\
    (Z.abs (draft_fee tx / draft_weight tx - 1) <= 1)%Z /\
    forall fuel',
      targetFee_from draft_weight (construct_draft 444 330 100000) fuel' 1
        (draft_weight tx * 1) = Ok tx.
Proof.
  apply (@fee_targeting_fixed_point ClaimDraft draft_weight draft_fee
           (construct_draft 444 330 100000) 1 444 0).
  - lia.
  - intros fee tx. apply construct_draft_template.
  - reflexivity.
  - reflexivity.
Defined.

(** * Runs for the rest of the listeners and of the session *)

Import ToyInputs.

Lemma other_tags_are_ignored_witness :
  let out := run (env svc0) (on_message BtcToArk ctx0 expired0) in
  fst out = [] /\ snd out = Ok tt.
Proof.
  cbv zeta.
  apply (@other_tags_are_ignored lib BtcToArk ctx0 expired0
           (status_update (JStr "swap1") "swap.expired" []) (JStr "swap.expired")).
  - reflexivity.
  - reflexivity.
  - apply run_exec.
Defined.

Lemma malformed_message_throws_before_any_call_witness :
  let out := run (env svc0) (on_message ArkToBtc ctx0 (Ok JNull)) in
  fst out = [] /\ snd out = Error TypeError.
Proof.
  cbv zeta.
  apply (proj2 (@malformed_message_throws_before_any_call lib ArkToBtc ctx0
                  (Ok JNull) TypeError)).
  - reflexivity.
  - apply run_exec.
Defined.

Lemma lockupFailed_every_run_witness :
  let tr := fst (run (env svc_no_amount) (lockupFailed ctx0)) in
  List.length tr = 2 /\ collect quote_submission tr = [Some (JObj [])].
Proof.
  cbv zeta.
  exact (@lockupFailed_every_run lib ctx0 _ _
           (run_exec (env svc_no_amount) (lockupFailed ctx0))).
Defined.

Lemma requests_are_for_the_own_swap_witness :
  let tr := fst (run (env svc0) (on_message ArkToBtc ctx0 (Ok mempool0))) in
  List.length (collect request tr) = 2 /\
  collect ws_sent tr = [] /\
  forall q, In q (collect request tr) ->
    (ArkToBtc = ArkToBtc /\ method q = POST /\ path q = PBroadcast) \/
    exists id, get (createdResponse ctx0) "id" = Ok id /\
               (path q = PQuote id \/ path q = PClaim id).
Proof.
  cbv zeta. split; [reflexivity|].
  exact (@requests_are_for_the_own_swap lib ArkToBtc ctx0 (Ok mempool0) _ _
           (run_exec (env svc0) _)).
Defined.


Lemma broadcast_carries_the_aggregate_signature_witness :
  let tr := fst (run (env svc0) (arkToBtc_serverMempool ctx0 mempool0)) in
  let b := hd None (collect broadcast tr) in
  exists claimTx session session' signed signature claimTx',
    In claimTx (collect fee_target tr) /\
    In (session, session') (collect partial_added tr) /\
    In (session', signed) (collect partial_signed tr) /\
    In (signed, signature) (collect aggregate_signature tr) /\
    In (claimTx, 0%Z, [signature], claimTx') (collect input_updated tr) /\
    b = Some (JObj [("hex", JStr (tx_hex claimTx'))]).
Proof.
  cbv zeta.
  apply (@broadcast_carries_the_aggregate_signature lib ctx0 mempool0 _ _ _
           (run_exec (env svc0) (arkToBtc_serverMempool ctx0 mempool0))).
  vm_compute. left. reflexivity.
Defined.

Lemma server_key_of_the_creation_response_witness :
  let tr := fst (run (env svc0) (arkToBtc_serverMempool ctx0 mempool0)) in
  collect partial_call tr = [([x03; xaa], [x0d; x0e])] /\
  forall pk sig, In (pk, sig) (collect partial_call tr) ->
    serverPublicKey ctx0 "claimDetails" = Ok pk.
Proof.
  cbv zeta. split; [reflexivity|].
  exact (proj2 (proj2 (proj1 (@server_key_of_the_creation_response lib ctx0)
                         mempool0 _ _
                         (run_exec (env svc0) (arkToBtc_serverMempool ctx0 mempool0))))).
Defined.

Lemma one_message_one_nonce_witness :
  let tr := fst (run (env svc0) (on_message BtcToArk ctx0 pending0)) in
  List.length (collect nonce_call tr) = 1 /\
  (List.length (collect bound_message tr) <= 1 /\
   List.length (collect nonce_call tr) <= 1 /\
   forall b, In b (collect nonce_call tr) ->
     exists musig msg, In (musig, msg, b) (collect bound_builder tr)).
Proof.
  cbv zeta. split; [reflexivity|].
  exact (@one_message_one_nonce lib BtcToArk ctx0 pending0 _ _
           (run_exec (env svc0) (on_message BtcToArk ctx0 pending0))).
Defined.

Lemma btcToArk_keeps_the_preimage_witness :
  let tr := fst (run (env svc0) (on_message BtcToArk ctx0 pending0)) in
  List.length (collect claim_submission tr) = 1 /\
  get (hd JNull (collect claim_submission tr)) "preimage" = Ok JUndefined.
Proof.
  cbv zeta. split; [reflexivity|].
  apply (proj2 (@btcToArk_keeps_the_preimage lib) ctx0 pending0 _ _ _
           (run_exec (env svc0) (on_message BtcToArk ctx0 pending0))).
  vm_compute. left. reflexivity.
Defined.

Lemma session_opening_witness :
  let out := run (env svc0) (chainSwap ArkToBtc [Ok mempool0]) in
  ((exists e, snd out = Error e) /\ List.length (fst out) <= 5 /\
   forall q, In q (collect request (fst out)) -> path q = PSwapChain) \/
  exists pre key pk ark created id rest,
    arkPublicKey = Ok ark /\
    get created "id" = Ok id /\
    fst out = opening_calls ArkToBtc pre key pk ark created id ++ rest /\
    exec (handle_all (on_message ArkToBtc (mkCtx pre key created)) [Ok mempool0])
      rest (snd out).
Proof.
  cbv zeta.
  exact (@session_opening lib ArkToBtc [Ok mempool0] _ _
           (run_exec (env svc0) (chainSwap ArkToBtc [Ok mempool0]))).
Defined.


Lemma silent_messages_are_transparent_witness :
  handle_all (on_message ArkToBtc ctx0) ([Ok mempool0] ++ subscribed0 :: [expired0]) =
  handle_all (on_message ArkToBtc ctx0) ([Ok mempool0] ++ [expired0]).
Proof.
  apply (@silent_messages_are_transparent lib ArkToBtc ctx0 subscribed0).
  reflexivity.
Defined.

Lemma calls_are_bounded_by_the_updates_witness :
  let inbound := [pending0; subscribed0; pending0; expired0] in
  let tr := fst (run (env svc0) (handle_all (on_message BtcToArk ctx0) inbound)) in
  tally tr = mkTally 0 0 2 0 /\
  tally_le (tally tr)
    (mkTally (count_tag "transaction.lockupFailed" inbound)
             (count_tag "transaction.lockupFailed" inbound)
             (count_tag (signing_tag BtcToArk) inbound)
             (count_tag "transaction.claimed" inbound)).
Proof.
  cbv zeta. split; [vm_compute; reflexivity|].
  exact (@calls_are_bounded_by_the_updates lib BtcToArk ctx0
           [pending0; subscribed0; pending0; expired0] _ _ (run_exec (env svc0) _)).
Defined.

Lemma claim_closure_spends_the_detected_output_witness :
  let tr := fst (run (env svc0) (arkToBtc_serverMempool ctx0 mempool0)) in
  let c := hd (fun _ => Error LibError) (collect fee_closure tr) in
  let o := mkSwapOutput [x51] 100000 0 in
  exists raw lockupTx swapTree musig,
    lockup_raw mempool0 = Ok raw /\
    In (raw, lockupTx) (collect parsed_tx tr) /\
    In swapTree (collect deserialized tr) /\
    In musig (collect tweaked tr) /\
    In (aggPubkey musig) (collect detection_key tr) /\
    forall fee,
      c fee = Ok (mkClaimCall
                    [ mkClaimDetails (preimage ctx0) Taproot (script o) (amount o) (vout o)
                        (keys ctx0) (tx_id lockupTx) swapTree (internalKey musig) true ]
                    destinationAddress fee).
Proof.
  cbv zeta.
  apply (@claim_closure_spends_the_detected_output lib ctx0 mempool0 _ _ _ _
           (run_exec (env svc0) (arkToBtc_serverMempool ctx0 mempool0))).
  - cbn. left. reflexivity.
  - vm_compute. left. reflexivity.
Defined.

Lemma secret_key_stays_in_the_packages_witness :
  let tr := fst (run (env svc0) (on_message ArkToBtc ctx0 (Ok mempool0))) in
  let r := snd (run (env svc0) (on_message ArkToBtc ctx0 (Ok mempool0))) in
  exec (on_message ArkToBtc (mkCtx (repeat x07 32) [x05; x06] created0) (Ok mempool0))
       (map (rekey [x05; x06]) tr) r /\
  collect to_service (map (rekey [x05; x06]) tr) = collect to_service tr.
Proof.
  cbv zeta.
  exact (@secret_key_stays_in_the_packages lib ArkToBtc (repeat x07 32) [x01] [x05; x06]
           created0 (Ok mempool0) _ _
           (run_exec (env svc0) (on_message ArkToBtc ctx0 (Ok mempool0)))).
Defined.

Lemma creation_carries_the_session_keys_witness :
  let tr := fst (run (env svc0) arkToBtc_create) in
  let b := hd JNull (collect creation tr) in
  exists pre pk ark,
    collect random_bytes tr = [pre] /\
    collect own_key tr = [pk] /\
    arkPublicKey = Ok ark /\
    get b "from" = Ok (JStr "ARK") /\
    get b "to" = Ok (JStr "BTC") /\
    get b "userLockAmount" = Ok (JNum userLockAmount) /\
    hex_field "preimageHash" b = Ok (sha256 pre) /\
    hex_field "claimPublicKey" b = Ok pk /\
    hex_field "refundPublicKey" b = Ok ark.
Proof.
  cbv zeta.
  apply (proj1 (@creation_carries_the_session_keys lib) _ _ _
           (run_exec (env svc0) arkToBtc_create)).
  vm_compute. left. reflexivity.
Defined.

